(** * Trace identifiers of caser789/logger: a shallow embedding of
      [internal/trace] (span.go, flag.go, span_generator.go, tracer.go)
      and the properties of its 32-byte SpanContext identifier. *)

From Stdlib Require Import ZArith Lia Bool Ascii String.
From Stdlib Require Import Floats.SpecFloat.
From stdpp Require Import base list strings.

Local Open Scope Z_scope.

(** ** Go values

    A Go [byte]/[uint8] is a [Z] in [0, 256), a [uint16] a [Z] in
    [0, 65536); conversions and arithmetic write the wrap-around out.
    A fixed array [[n]byte] is a [list Z] of length [n]; a slice [a[i:j]]
    of it is the sub-list, spliced back after the callee wrote to it. *)

Definition uint8 (z : Z) : Z := z mod 256.
Definition uint16 (z : Z) : Z := z mod 65536.
Definition is_byte (b : Z) : Prop := 0 <= b < 256.

(** [a[i]] on an index known to be in range. *)
Definition at_ (l : list Z) (i : nat) : Z := default 0 (l !! i).

(** Go's builtin [copy(dst, src)]: min(len dst, len src) elements. *)
Definition copy {A} (dst src : list A) : list A :=
  take (length dst) src ++ drop (length src) dst.

Definition zeros (n : nat) : list Z := replicate n 0.

(** Errors a parser of this package can return, and the outcome of a call
    that may return a value, return an error, or panic at run time. *)
Inductive error : Type :=
| errConvertToSpanContext
| ErrLength
| InvalidByteError (c : ascii).

Inductive outcome (A : Type) : Type :=
| Ok (a : A)
| Fail (e : error)
| Panic.
Arguments Ok {A} a.
Arguments Fail {A} e.
Arguments Panic {A}.

(** [outcome] is an error monad: a failure or a panic ends the call. *)
#[global] Instance outcome_ret : MRet outcome := fun A a => Ok a.
#[global] Instance outcome_bind : MBind outcome := fun A B k m =>
  match m with
  | Ok a => k a
  | Fail e => Fail e
  | Panic => Panic
  end.

(** Slice expression [l[lo:hi]]: a run-time panic when out of range. *)
Definition slice {A} (l : list A) (lo hi : Z) : outcome (list A) :=
  if (0 <=? lo) && (lo <=? hi) && (hi <=? Z.of_nat (length l))
  then Ok (take (Z.to_nat (hi - lo)) (drop (Z.to_nat lo) l))
  else Panic.

(** [strings.Index(data, c)] and [strings.LastIndex(data, c)] for a
    one-byte needle: the position of the first (last) occurrence, or -1. *)
Fixpoint strings_Index (data : list ascii) (c : ascii) : Z :=
  match data with
  | [] => -1
  | a :: rest =>
      if Ascii.eqb a c then 0
      else let r := strings_Index rest c in
           if r <? 0 then -1 else r + 1
  end.

Fixpoint strings_LastIndex (data : list ascii) (c : ascii) : Z :=
  match data with
  | [] => -1
  | a :: rest =>
      let r := strings_LastIndex rest c in
      if 0 <=? r then r + 1
      else if Ascii.eqb a c then 0 else -1
  end.

(** ** encoding/hex (Go standard library) *)

Definition hextable : list ascii := list_ascii_of_string "0123456789abcdef".

Definition hexdigit (n : Z) : ascii :=
  default "0"%char (hextable !! Z.to_nat n).

(** [reverseHexTable]: the value of a hex digit of either case, 0xff for
    every other byte. *)
Definition reverseHexTable (c : ascii) : Z :=
  let n := Z.of_N (N_of_ascii c) in
  if (48 <=? n) && (n <=? 57) then n - 48
  else if (97 <=? n) && (n <=? 102) then n - 87
  else if (65 <=? n) && (n <=? 70) then n - 55
  else 255.

(** [hex.Encode(dst, src)]: two digits per byte, written at [j], [j+1]. *)
Fixpoint hex_Encode_from (j : nat) (dst : list ascii) (src : list Z) : list ascii :=
  match src with
  | [] => dst
  | v :: rest =>
      let dst := <[j := hexdigit (Z.shiftr v 4)]> dst in
      let dst := <[S j := hexdigit (Z.land v 15)]> dst in
      hex_Encode_from (S (S j)) dst rest
  end.

Definition hex_Encode (dst : list ascii) (src : list Z) : list ascii :=
  hex_Encode_from 0 dst src.

Definition hex_EncodedLen (n : nat) : nat := (n * 2)%nat.

(** The digits of [src] in order, two per byte: the text
    [hex.EncodeToString(src)] returns. *)
Definition hex_digits (src : list Z) : list ascii :=
  v ← src; [hexdigit (Z.shiftr v 4); hexdigit (Z.land v 15)].

(** [hex.Decode(dst, src)]: pairs of digits are decoded left to right and
    stored at [dst[i]]; the store panics when [i] is past the end of [dst].
    An invalid digit is reported before an odd length. *)
Fixpoint hex_Decode_from (i : nat) (dst : list Z) (src : list ascii) : outcome (list Z) :=
  match src with
  | [] => Ok dst
  | [p] =>
      if 15 <? reverseHexTable p then Fail (InvalidByteError p)
      else Fail ErrLength
  | p :: q :: rest =>
      let a := reverseHexTable p in
      let b := reverseHexTable q in
      if 15 <? a then Fail (InvalidByteError p)
      else if 15 <? b then Fail (InvalidByteError q)
      else if (i <? length dst)%nat
           then hex_Decode_from (S i) (<[i := Z.lor (uint8 (Z.shiftl a 4)) b]> dst) rest
           else Panic
  end.

Definition hex_Decode (dst : list Z) (src : list ascii) : outcome (list Z) :=
  hex_Decode_from 0 dst src.

(** ** float64 and package math

    A [float64] is an IEEE 754 binary64 value, [spec_float] with
    precision 53; [<] is [SFltb]. *)
Abbreviation float64 := spec_float.

Definition f64_zero : float64 := S754_zero false.
Definition f64_one : float64 := S754_finite false 4503599627370496 (-52).

Definition IsNaN (x : float64) : bool :=
  match x with S754_nan => true | _ => false end.

Definition IsInf (x : float64) (negative : bool) : bool :=
  match x with S754_infinity s => Bool.eqb s negative | _ => false end.

Definition Signbit (x : float64) : bool :=
  match x with
  | S754_zero s | S754_infinity s | S754_finite s _ _ => s
  | S754_nan => false
  end.

Definition is_zero (x : float64) : bool :=
  match x with S754_zero _ => true | _ => false end.

(** [math.Max] and [math.Min] with their special cases. *)
Definition math_Max (x y : float64) : float64 :=
  if IsInf x false || IsInf y false then S754_infinity false
  else if IsNaN x || IsNaN y then S754_nan
  else if is_zero x && SFeqb x y then (if Signbit x then y else x)
  else if SFltb y x then x else y.

Definition math_Min (x y : float64) : float64 :=
  if IsInf x true || IsInf y true then S754_infinity true
  else if IsNaN x || IsNaN y then S754_nan
  else if is_zero x && SFeqb x y then (if Signbit x then x else y)
  else if SFltb x y then x else y.

(** ** The process environment

    [math/rand]'s global source and the wall clock are the only inputs the
    package reads besides its arguments. Each is a stream with a cursor,
    so that every call consumes fresh values. *)
Record World : Type := {
  rand_src : nat -> Z;         (* bytes delivered by rand.Read *)
  rand_pos : nat;
  float_src : nat -> float64;  (* values delivered by rand.Float64 *)
  float_pos : nat;
  clock : nat -> Z;            (* time.Now().UnixNano() *)
  clock_pos : nat
}.

(** [rand.Read(p)] fills [p] and always returns [len(p), nil]. *)
Definition rand_Read (p : list Z) (w : World) : list Z * nat * World :=
  let n := length p in
  (map (fun k => uint8 (rand_src w (rand_pos w + k)%nat)) (seq 0 n), n,
   {| rand_src := rand_src w; rand_pos := (rand_pos w + n)%nat;
      float_src := float_src w; float_pos := float_pos w;
      clock := clock w; clock_pos := clock_pos w |}).

Definition rand_Float64 (w : World) : float64 * World :=
  (float_src w (float_pos w),
   {| rand_src := rand_src w; rand_pos := rand_pos w;
      float_src := float_src w; float_pos := S (float_pos w);
      clock := clock w; clock_pos := clock_pos w |}).

Definition time_Now_UnixNano (w : World) : Z * World :=
  (clock w (clock_pos w),
   {| rand_src := rand_src w; rand_pos := rand_pos w;
      float_src := float_src w; float_pos := float_pos w;
      clock := clock w; clock_pos := S (clock_pos w) |}).

(** What [rand.Float64] promises about its result: it lies in [0.0, 1.0). *)
Definition in_unit_interval (d : float64) : Prop :=
  SFleb f64_zero d = true /\ SFltb d f64_one = true.

(** ** span.go: constants *)

Definition traceIDSize : nat := 16.
Definition spanIDSize : nat := 8.
Definition totalIDSize : nat := (traceIDSize + spanIDSize * 2)%nat.

Definition flagBitsTotal : Z := 8.
Definition flagBitsTypeMarker : Z := 3.
Definition flagBitsNonTypeMarker : Z := flagBitsTotal - flagBitsTypeMarker.

Definition traceFlagOldDebug : Z := 1.
Definition traceFlagSampled : Z := Z.shiftl 1 1.
Definition traceFlagCritical : Z := Z.shiftl 1 2.
Definition typeMarkerForOldFormat : Z := Z.shiftl 0 5.
Definition typeMarkerForDebug : Z := Z.shiftl 2 5.
Definition typeMarkerForStressTest : Z := Z.shiftl 3 5.
Definition typeMarkerForShadow : Z := Z.shiftl 4 5.
Definition typeMarkerMask : Z := Z.shiftl 7 5.

(** [^x] on a [uint8]. *)
Definition not8 (x : Z) : Z := Z.lxor x 255.

(** ** span.go: random tails and SpanIDs *)

(** The loop of [getRandomBytes]:
    [for i := 0; i < bsLen-1 && bs[i] != 0; i++ { isAllZero = false }],
    run over the bytes before the last one. *)
Fixpoint scan_prefix (prefix : list Z) (isAllZero : bool) : bool :=
  match prefix with
  | [] => isAllZero
  | b :: rest => if b =? 0 then isAllZero else scan_prefix rest false
  end.

Definition getRandomBytes (bs : list Z) (w : World) : list Z * World :=
  if (length bs =? 0)%nat then (bs, w)
  else
    let '(bs, bsLen, w) := rand_Read bs w in
    if at_ bs (bsLen - 1) =? 0 then
      let isAllZero := scan_prefix (take (bsLen - 1) bs) true in
      if isAllZero then (<[(bsLen - 1)%nat := 1]> bs, w) else (bs, w)
    else (bs, w).

(** [newSpanID(spanID, level, sequenceID)]; [spanID[3:spanIDSize]] is
    handed to [getRandomBytes] and its bytes land in place. *)
Definition newSpanID (spanID : list Z) (level sequenceID : Z) (w : World)
  : list Z * World :=
  let spanID := <[0%nat := level]> spanID in
  let spanID :=
    if 0 <? sequenceID
    then <[2%nat := uint8 sequenceID]>
           (<[1%nat := uint8 (Z.shiftr sequenceID 8)]> spanID)
    else spanID in
  let '(tail, w) := getRandomBytes (take (spanIDSize - 3) (drop 3 spanID)) w in
  (take 3 spanID ++ tail ++ drop spanIDSize spanID, w).

(** ** span.go: spanContext and its methods

    The mutex only serialises the read-and-increment of the counter; one
    call of [NewChildSpanContext] is one atomic step on the parent. *)
Module spanContext.

Record t : Type := {
    childSequenceID : Z;   (* uint16: next SequenceID of children *)
    id : list Z            (* [totalIDSize]byte *)
  }.

Definition TraceID (sc : t) : list Z := take traceIDSize (id sc).
Definition SpanID (sc : t) : list Z :=
    take spanIDSize (drop traceIDSize (id sc)).
Definition ParentID (sc : t) : list Z :=
    drop (traceIDSize + spanIDSize) (id sc).

Definition Bytes (sc : t) : list Z := id sc.

Definition String (sc : t) : string :=
    let rBytes := replicate (totalIDSize * 2 + 2) zero in
    let rBytes := hex_Encode rBytes (TraceID sc) in
    let rBytes := <[hex_EncodedLen traceIDSize := ":"%char]> rBytes in
    let off := S (hex_EncodedLen traceIDSize) in
    let rBytes := take off rBytes ++ hex_Encode (drop off rBytes) (SpanID sc) in
    let rBytes :=
      <[S (hex_EncodedLen (traceIDSize + spanIDSize)) := ":"%char]> rBytes in
    let off := S (S (hex_EncodedLen (traceIDSize + spanIDSize))) in
    let rBytes := take off rBytes ++ hex_Encode (drop off rBytes) (ParentID sc) in
    string_of_list_ascii rBytes.

  (** flag.go's helpers [getSpecialFlag] and [isOldFormat] take the
      interface and read the flag through [TraceID()]; the methods below
      call [isOldFormat] and otherwise index [sc.id] themselves. *)
Definition getSpecialFlag (sc : t) : Z := at_ (TraceID sc) (traceIDSize - 1).

Definition isOldFormat (sc : t) : bool :=
    Z.land (getSpecialFlag sc) typeMarkerMask =? typeMarkerForOldFormat.

Definition IsDebug (sc : t) : bool :=
    if isOldFormat sc then
      if Z.land (at_ (id sc) (traceIDSize - 1)) traceFlagOldDebug
           =? traceFlagOldDebug
      then true
      else Z.land (at_ (id sc) (traceIDSize - 1)) typeMarkerMask
             =? typeMarkerForDebug
    else Z.land (at_ (id sc) (traceIDSize - 1)) typeMarkerMask
           =? typeMarkerForDebug.

Definition IsFromStressTest (sc : t) : bool :=
    Z.land (at_ (id sc) (traceIDSize - 1)) typeMarkerMask
      =? typeMarkerForStressTest.

Definition IsSampled (sc : t) : bool :=
    (Z.land (at_ (id sc) (traceIDSize - 1)) traceFlagSampled =? traceFlagSampled)
    || IsDebug sc.

Definition level (sc : t) : Z := at_ (id sc) traceIDSize.

Definition GetTypeMarker (sc : t) : Z :=
    Z.shiftr (Z.land (at_ (id sc) (traceIDSize - 1)) typeMarkerMask)
             flagBitsNonTypeMarker.

  (** Returns the child, the parent with its counter advanced, and the
      environment after the random draw. *)
Definition NewChildSpanContext (sc : t) (w : World) : t * t * World :=
    let currentSequenceID := childSequenceID sc in
    let sc' := {| childSequenceID := uint16 (childSequenceID sc + 1);
                  id := id sc |} in
    let childID := zeros totalIDSize in
    let childID := copy childID (TraceID sc) in
    let '(spanID, w) :=
      newSpanID (take spanIDSize (drop traceIDSize childID))
                (uint8 (level sc + 1)) currentSequenceID w in
    let childID :=
      take traceIDSize childID ++ spanID
        ++ drop (traceIDSize + spanIDSize) childID in
    let childID :=
      take (traceIDSize + spanIDSize) childID
        ++ copy (drop (traceIDSize + spanIDSize) childID) (SpanID sc) in
    ({| childSequenceID := 0; id := childID |}, sc', w).

(** [TraceIDString], [SpanIDString], [ParentIDString]: each encodes one
    segment into a fresh array of twice its size. *)
Definition TraceIDString (sc : t) : string :=
  let dst := replicate (traceIDSize * 2) zero in
  string_of_list_ascii (hex_Encode dst (TraceID sc)).

Definition SpanIDString (sc : t) : string :=
  let dst := replicate (spanIDSize * 2) zero in
  string_of_list_ascii (hex_Encode dst (SpanID sc)).

Definition ParentIDString (sc : t) : string :=
  let dst := replicate (spanIDSize * 2) zero in
  string_of_list_ascii (hex_Encode dst (ParentID sc)).

End spanContext.

(** The interface [SpanContext]: nil, or a pointer to a [spanContext]. *)
Abbreviation SpanContext := (option spanContext.t).

Definition NewSpanContextFromBytes (data : list Z) : outcome spanContext.t :=
  if negb (length data =? totalIDSize)%nat then Fail errConvertToSpanContext
  else
    let tmp := copy (zeros totalIDSize) data in
    Ok {| spanContext.childSequenceID := 0; spanContext.id := tmp |}.

Definition NewSpanContextFromString (data : string) : outcome spanContext.t :=
  let data := list_ascii_of_string data in
  let len := Z.of_nat (length data) in
  if len =? 0 then Fail errConvertToSpanContext
  else
    let firstColonIdx := strings_Index data ":"%char in
    let lastColonIdx := strings_LastIndex data ":"%char in
    if firstColonIdx >=? lastColonIdx then Fail errConvertToSpanContext
    else
      let hBytes := zeros totalIDSize in
      seg ← slice data 0 firstColonIdx;
      hBytes ← hex_Decode hBytes seg;
      seg ← slice data (firstColonIdx + 1) lastColonIdx;
      tail ← hex_Decode (drop traceIDSize hBytes) seg;
      let hBytes := take traceIDSize hBytes ++ tail in
      seg ← slice data (lastColonIdx + 1) len;
      tail ← hex_Decode (drop (traceIDSize + spanIDSize) hBytes) seg;
      let hBytes := take (traceIDSize + spanIDSize) hBytes ++ tail in
      Ok {| spanContext.childSequenceID := 0; spanContext.id := hBytes |}.

(** ** flag.go: the flag decoder *)

Definition getSpecialFlag (sc : spanContext.t) : Z :=
  spanContext.getSpecialFlag sc.

Definition isOldFormat (sc : spanContext.t) : bool :=
  spanContext.isOldFormat sc.

Definition GetTypeMarker (sc : SpanContext) : Z :=
  match sc with
  | None => 0
  | Some sc =>
      Z.shiftr (Z.land (getSpecialFlag sc) typeMarkerMask) flagBitsNonTypeMarker
  end.

Definition IsSpanContextDebug (sc : SpanContext) : bool :=
  match sc with
  | None => false
  | Some sc =>
      if isOldFormat sc
      then Z.land (getSpecialFlag sc) traceFlagOldDebug =? traceFlagOldDebug
      else Z.land (getSpecialFlag sc) typeMarkerMask =? typeMarkerForDebug
  end.

Definition IsSpanContextFromStressTest (sc : SpanContext) : bool :=
  match sc with
  | None => false
  | Some sc => Z.land (getSpecialFlag sc) typeMarkerMask =? typeMarkerForStressTest
  end.

Definition IsSpanContextShadow (sc : SpanContext) : bool :=
  match sc with
  | None => false
  | Some sc => Z.land (getSpecialFlag sc) typeMarkerMask =? typeMarkerForShadow
  end.

Definition IsSpanContextSampled (sc : SpanContext) : bool :=
  match sc with
  | None => false
  | Some s =>
      (Z.land (getSpecialFlag s) traceFlagSampled =? traceFlagSampled)
      || IsSpanContextDebug sc
  end.

Definition IsSpanContextCritical (sc : SpanContext) : bool :=
  match sc with
  | None => false
  | Some sc => Z.land (getSpecialFlag sc) traceFlagCritical =? traceFlagCritical
  end.

(** ** tracer.go: samplers *)

(** The interface [Sampler]: a decision that may read the environment. *)
Record Sampler : Type := { Sampler_IsSampled : World -> bool * World }.

Module ProbabilisticSampler.

Record t : Type := { samplingRate : float64 }.

Definition IsSampled (s : t) (w : World) : bool * World :=
    let '(draw, w) := rand_Float64 w in
    (SFltb draw (samplingRate s), w).

Definition SamplingRate (s : t) : float64 := samplingRate s.

Definition as_Sampler (s : t) : Sampler :=
    {| Sampler_IsSampled := IsSampled s |}.

End ProbabilisticSampler.

Definition NewProbabilisticSampler (samplingRate : float64) : ProbabilisticSampler.t :=
  {| ProbabilisticSampler.samplingRate :=
       math_Max f64_zero (math_Min samplingRate f64_one) |}.

(** ** span_generator.go *)

Module SpanContextOptions.
Record t : Type := {
    IsDebug : bool;
    IsFromStressTest : bool;
    IsShadow : bool;
    IsSampled : option bool;   (* *bool, nil when absent *)
    IsCritical : bool
  }.
End SpanContextOptions.

Abbreviation SpanContextOption := (SpanContextOptions.t -> SpanContextOptions.t).

Definition IsDebug (isDebug : bool) : SpanContextOption := fun o =>
  {| SpanContextOptions.IsDebug := isDebug;
     SpanContextOptions.IsFromStressTest := SpanContextOptions.IsFromStressTest o;
     SpanContextOptions.IsShadow := SpanContextOptions.IsShadow o;
     SpanContextOptions.IsSampled := SpanContextOptions.IsSampled o;
     SpanContextOptions.IsCritical := SpanContextOptions.IsCritical o |}.

Definition IsFromStressTest (isFromStressTest : bool) : SpanContextOption := fun o =>
  {| SpanContextOptions.IsDebug := SpanContextOptions.IsDebug o;
     SpanContextOptions.IsFromStressTest := isFromStressTest;
     SpanContextOptions.IsShadow := SpanContextOptions.IsShadow o;
     SpanContextOptions.IsSampled := SpanContextOptions.IsSampled o;
     SpanContextOptions.IsCritical := SpanContextOptions.IsCritical o |}.

Definition IsShadow (isShadow : bool) : SpanContextOption := fun o =>
  {| SpanContextOptions.IsDebug := SpanContextOptions.IsDebug o;
     SpanContextOptions.IsFromStressTest := SpanContextOptions.IsFromStressTest o;
     SpanContextOptions.IsShadow := isShadow;
     SpanContextOptions.IsSampled := SpanContextOptions.IsSampled o;
     SpanContextOptions.IsCritical := SpanContextOptions.IsCritical o |}.

Definition IsSampled (isSampled : option bool) : SpanContextOption := fun o =>
  {| SpanContextOptions.IsDebug := SpanContextOptions.IsDebug o;
     SpanContextOptions.IsFromStressTest := SpanContextOptions.IsFromStressTest o;
     SpanContextOptions.IsShadow := SpanContextOptions.IsShadow o;
     SpanContextOptions.IsSampled := isSampled;
     SpanContextOptions.IsCritical := SpanContextOptions.IsCritical o |}.

Definition IsCritical (isCritical : bool) : SpanContextOption := fun o =>
  {| SpanContextOptions.IsDebug := SpanContextOptions.IsDebug o;
     SpanContextOptions.IsFromStressTest := SpanContextOptions.IsFromStressTest o;
     SpanContextOptions.IsShadow := SpanContextOptions.IsShadow o;
     SpanContextOptions.IsSampled := SpanContextOptions.IsSampled o;
     SpanContextOptions.IsCritical := isCritical |}.

Definition setTypeMarker (sco : SpanContextOptions.t) (traceFlag : Z) : Z :=
  if SpanContextOptions.IsDebug sco then
    Z.lor traceFlag traceFlagOldDebug
  else if SpanContextOptions.IsFromStressTest sco then
    Z.lor (Z.land traceFlag (not8 typeMarkerMask)) typeMarkerForStressTest
  else if SpanContextOptions.IsShadow sco then
    Z.lor (Z.land traceFlag (not8 typeMarkerMask)) typeMarkerForShadow
  else traceFlag.

Module cachedSpanContextGenerator.

Record t : Type := {
    serviceInstanceID : string;
    instanceIDHash : list Z;   (* [4]byte *)
    sampler : Sampler
  }.

End cachedSpanContextGenerator.

Definition setSingleFlags (sco : SpanContextOptions.t) (traceFlag : Z)
    (scg : cachedSpanContextGenerator.t) (w : World) : Z * World :=
  let '(traceFlag, w) :=
    match SpanContextOptions.IsSampled sco with
    | Some b => (if b then Z.lor traceFlag traceFlagSampled else traceFlag, w)
    | None =>
        let '(b, w) :=
          Sampler_IsSampled (cachedSpanContextGenerator.sampler scg) w in
        (if b then Z.lor traceFlag traceFlagSampled else traceFlag, w)
    end in
  let traceFlag :=
    if SpanContextOptions.IsCritical sco
    then Z.lor traceFlag traceFlagCritical else traceFlag in
  (traceFlag, w).

Definition newSpanContextID (scg : cachedSpanContextGenerator.t)
    (scID : list Z) (flag : Z) (w : World) : list Z * World :=
  let scID := copy scID (cachedSpanContextGenerator.instanceIDHash scg) in
  let '(nano, w) := time_Now_UnixNano w in
  let timestamp := Z.quot nano 1000 in
  let scID := <[4%nat := uint8 (Z.shiftr timestamp 40)]> scID in
  let scID := <[5%nat := uint8 (Z.shiftr timestamp 32)]> scID in
  let scID := <[6%nat := uint8 (Z.shiftr timestamp 24)]> scID in
  let scID := <[7%nat := uint8 (Z.shiftr timestamp 16)]> scID in
  let scID := <[8%nat := uint8 (Z.shiftr timestamp 8)]> scID in
  let scID := <[9%nat := uint8 timestamp]> scID in
  let '(rnd, w) :=
    getRandomBytes (take (traceIDSize - 1 - 10) (drop 10 scID)) w in
  let scID := take 10 scID ++ rnd ++ drop (traceIDSize - 1) scID in
  let scID := <[(traceIDSize - 1)%nat := flag]> scID in
  let '(spanID, w) := newSpanID (drop traceIDSize scID) 0 0 w in
  (take traceIDSize scID ++ spanID, w).

(** The first statements of [NewSpanContext]: the defaults, then
    [for _, f := range options { f(&sco) }]. *)
Definition applyOptions (options : list SpanContextOption) : SpanContextOptions.t :=
  foldl (fun sco f => f sco)
    {| SpanContextOptions.IsDebug := false;
       SpanContextOptions.IsFromStressTest := false;
       SpanContextOptions.IsShadow := false;
       SpanContextOptions.IsSampled := None;
       SpanContextOptions.IsCritical := false |} options.

Definition NewSpanContext (scg : cachedSpanContextGenerator.t)
    (options : list SpanContextOption) (w : World) : spanContext.t * World :=
  let sco := applyOptions options in
  let traceFlag := 0 in
  let traceFlag := setTypeMarker sco traceFlag in
  let '(traceFlag, w) := setSingleFlags sco traceFlag scg w in
  let '(scID, w) := newSpanContextID scg (zeros totalIDSize) traceFlag w in
  ({| spanContext.childSequenceID := 0; spanContext.id := scID |}, w).


(** The sequence number of a SpanContext: bytes 1-2 of its SpanID,
    big-endian. *)
Definition sequenceOf (sc : spanContext.t) : Z :=
  at_ (spanContext.SpanID sc) 1 * 256 + at_ (spanContext.SpanID sc) 2.

(** A [spanContext] value as Go's types constrain it. *)
Definition wf (sc : spanContext.t) : Prop :=
  length (spanContext.id sc) = totalIDSize
  /\ Forall is_byte (spanContext.id sc)
  /\ 0 <= spanContext.childSequenceID sc < 65536.

(** The interface value is nil or points to a well-formed context. *)
Definition wf_iface (sc : SpanContext) : Prop :=
  match sc with
  | None => True
  | Some s => wf s
  end.

(** ** span.go, flag.go: the remaining package-level functions *)

Definition SpanContextFromBytesToString (bytes : list Z) : string :=
  match NewSpanContextFromBytes bytes with
  | Ok spanContext => spanContext.String spanContext
  | _ => ""
  end.

Definition ReqTypeOldFormat : string := "old_format".
Definition ReqTypeNormal : string := "normal".
Definition ReqTypeDebug : string := "debug".
Definition ReqTypeStressTest : string := "stress_test".
Definition ReqTypeShadow : string := "shadow".
Definition ReqTypeUnknown : string := "unknown".

Definition GetRequestType (sc : SpanContext) : string :=
  let typeMarker := GetTypeMarker sc in
  match typeMarker with
  | 0 => ReqTypeOldFormat
  | 1 => ReqTypeNormal
  | 2 => ReqTypeDebug
  | 3 => ReqTypeStressTest
  | 4 => ReqTypeShadow
  | _ => ReqTypeUnknown
  end.

(** ** noop.go

    [NoopTracer] is the only [Tracer] of the repository and [NoopSpan] its
    only [Span]. A span holds a pointer to its context, so a call that
    advances the context's counter returns the span with the updated
    context. *)
Inductive NoopTracer : Type := mkNoopTracer.

Record NoopSpan : Type := {
  ctx : SpanContext;
  tracer : NoopTracer
}.

Definition NewSpanWithOptions (nt : NoopTracer) (name : string)
    (spanContext : SpanContext) : NoopSpan * option error :=
  ({| ctx := spanContext; tracer := nt |}, None).

Definition NewSpan (nt : NoopTracer) (name : string)
    (spanContext : SpanContext) : NoopSpan * option error :=
  NewSpanWithOptions nt name spanContext.

Definition NewNoopTracer : NoopTracer := mkNoopTracer.

(** [NewChildSpan]: the method call on a nil context is a nil dereference.
    Returns the new span (or the error), the receiver afterwards and the
    environment. *)
Definition NewChildSpan (ns : NoopSpan) (name : string) (w : World)
  : outcome (option NoopSpan * option error * NoopSpan * World) :=
  match ctx ns with
  | None => Panic
  | Some sc =>
      let '(childSpanContext, sc, w) := spanContext.NewChildSpanContext sc w in
      let ns := {| ctx := Some sc; tracer := tracer ns |} in
      let '(newSpan, err) := NewSpan (tracer ns) name (Some childSpanContext) in
      match err with
      | Some e => Ok (None, Some e, ns, w)
      | None => Ok (Some newSpan, None, ns, w)
      end
  end.

(** ** Vocabulary of the statements *)

(** [n] nested derivations: the first child of the first child, and so
    on; the last descendant. *)
Fixpoint descend (n : nat) (sc : spanContext.t) (w : World)
  : spanContext.t * World :=
  match n with
  | O => (sc, w)
  | Datatypes.S n =>
      let '(child, _, w) := spanContext.NewChildSpanContext sc w in
      descend n child w
  end.

(** A byte [hex.Decode] accepts: a digit or a letter a-f of either case. *)
Definition is_hex (c : ascii) : Prop := reverseHexTable c <= 15.

(** [l] spells at most [n] bytes in hex: digits only, two per byte. *)
Definition hex_segment (n : nat) (l : list ascii) : Prop :=
  Forall is_hex l /\ exists k, length l = (2 * k)%nat /\ (k <= n)%nat.

(** The raw draw [getRandomBytes] receives for a slice of [n] bytes. *)
Definition raw_draw (n : nat) (w : World) : list Z :=
  (rand_Read (zeros n) w).1.1.

(** A generator as Go's types constrain it: a 4-byte fingerprint. *)
Definition wf_generator (scg : cachedSpanContextGenerator.t) : Prop :=
  length (cachedSpanContextGenerator.instanceIDHash scg) = 4%nat
  /\ Forall is_byte (cachedSpanContextGenerator.instanceIDHash scg).

(** Big-endian value of a byte string. *)
Definition big_endian (bs : list Z) : Z :=
  foldl (fun acc b => acc * 256 + b) 0 bs.

(** ** Sample values: an environment, a generator and contexts *)

Definition sample_world : World :=
  {| rand_src := fun n => Z.of_nat n * 37 + 5; rand_pos := 0;
     float_src := fun _ => f64_zero; float_pos := 0;
     clock := fun n => 1700000000123456789 + Z.of_nat n; clock_pos := 0 |}.

(** An environment whose random source only delivers zero bytes. *)
Definition zero_world : World :=
  {| rand_src := fun _ => 0; rand_pos := 0;
     float_src := fun _ => f64_zero; float_pos := 0;
     clock := fun _ => 0; clock_pos := 0 |}.

Definition sample_generator : cachedSpanContextGenerator.t :=
  {| cachedSpanContextGenerator.serviceInstanceID := "svc";
     cachedSpanContextGenerator.instanceIDHash := [222; 173; 190; 239];
     cachedSpanContextGenerator.sampler :=
       ProbabilisticSampler.as_Sampler (NewProbabilisticSampler f64_one) |}.

Definition sample_root : spanContext.t :=
  fst (NewSpanContext sample_generator [] sample_world).

(** A context 255 levels deep, as [NewSpanContextFromBytes] accepts it. *)
Definition deep_context : spanContext.t :=
  {| spanContext.childSequenceID := 0;
     spanContext.id := zeros 16 ++ [255; 0; 0; 0; 0; 0; 0; 1] ++ zeros 8 |}.

(** * Properties *)

(** ** Bytes and fixed-size arrays *)

Lemma at_take (l : list Z) (n i : nat) :
  (i < n)%nat -> at_ (take n l) i = at_ l i.
Proof. intros Hi. unfold at_. now rewrite lookup_take_lt. Qed.

Lemma at_is_byte (l : list Z) (i : nat) :
  Forall is_byte l -> is_byte (at_ l i).
Proof.
  intros Hl. unfold at_.
  destruct (l !! i) as [x|] eqn:E; simpl.
  - exact (Forall_lookup_1 _ _ _ _ Hl E).
  - unfold is_byte. lia.
Qed.

(** A decidable property of bytes holds of all of them as soon as it
    holds of the 256 values. *)
Lemma byte_cases (P : Z -> Prop) `{!forall b, Decision (P b)} :
  bool_decide (Forall P (Z.of_nat <$> seq 0 256)) = true ->
  forall b, is_byte b -> P b.
Proof.
  intros Hall b [Hlo Hhi].
  apply bool_decide_eq_true_1 in Hall.
  rewrite Forall_forall in Hall. apply Hall.
  apply list_elem_of_fmap. exists (Z.to_nat b). split; [lia|].
  apply elem_of_seq. lia.
Qed.

Lemma getSpecialFlag_id (sc : spanContext.t) :
  getSpecialFlag sc = at_ (spanContext.id sc) (traceIDSize - 1).
Proof.
  unfold getSpecialFlag, spanContext.getSpecialFlag, spanContext.TraceID.
  apply at_take. unfold traceIDSize. lia.
Qed.

Lemma getSpecialFlag_byte (sc : spanContext.t) :
  wf sc -> is_byte (getSpecialFlag sc).
Proof.
  intros (_ & Hb & _). rewrite getSpecialFlag_id. now apply at_is_byte.
Qed.

Ltac by_byte_cases :=
  match goal with
  | |- forall f, is_byte f -> @?P f =>
      apply (byte_cases P); vm_compute; reflexivity
  end.

(** ** The flag decoder *)

Lemma marker_bits (f : Z) :
  is_byte f ->
  Z.shiftr (Z.land f typeMarkerMask) flagBitsNonTypeMarker
  = Z.b2z (Z.testbit f 5) + 2 * Z.b2z (Z.testbit f 6) + 4 * Z.b2z (Z.testbit f 7).
Proof.
  revert f. by_byte_cases.
Qed.

Lemma marker_zero_iff (f : Z) :
  is_byte f ->
  (Z.land f typeMarkerMask =? typeMarkerForOldFormat)
  = (Z.shiftr (Z.land f typeMarkerMask) flagBitsNonTypeMarker =? 0).
Proof.
  revert f. by_byte_cases.
Qed.

Lemma marker_debug_iff (f : Z) :
  is_byte f ->
  (Z.land f typeMarkerMask =? typeMarkerForDebug)
  = (Z.shiftr (Z.land f typeMarkerMask) flagBitsNonTypeMarker =? 2).
Proof.
  revert f. by_byte_cases.
Qed.

Lemma legacy_bit (f : Z) :
  is_byte f ->
  (Z.land f traceFlagOldDebug =? traceFlagOldDebug) = Z.testbit f 0.
Proof.
  intros _. unfold traceFlagOldDebug.
  change 1 with (Z.ones 1) at 1.
  rewrite Z.land_ones by lia. rewrite Z.bit0_odd.
  change (2 ^ 1) with 2. rewrite Zmod_odd.
  now destruct (Z.odd f).
Qed.

Lemma sampled_bit (f : Z) :
  is_byte f ->
  (Z.land f traceFlagSampled =? traceFlagSampled) = Z.testbit f 1.
Proof.
  revert f. by_byte_cases.
Qed.

Lemma flip_legacy_keeps_marker (f : Z) :
  Z.land (Z.lxor f 1) typeMarkerMask = Z.land f typeMarkerMask.
Proof.
  apply Z.bits_inj'. intros n Hn.
  rewrite !Z.land_spec, Z.lxor_spec.
  destruct (Z.eq_dec n 0) as [->|Hne].
  - now rewrite !andb_false_r.
  - replace (Z.testbit 1 n) with false; [now rewrite xorb_false_r|].
    symmetry. apply (Z.bits_above_log2 1 n); simpl; lia.
Qed.

(** C6: on a flag byte whose type-marker bits (5-7) are 0,
    [IsSpanContextDebug] is the legacy debug bit (bit 0); on a flag byte
    whose type-marker bits are not 0 it is true exactly when the marker is
    the debug value 2, and flipping the legacy bit does not change it. *)
Theorem IsSpanContextDebug_decoding (sc : spanContext.t) (Hwf : wf sc) :
  let f := getSpecialFlag sc in
  let marker := GetTypeMarker (Some sc) in
  marker = Z.b2z (Z.testbit f 5) + 2 * Z.b2z (Z.testbit f 6)
           + 4 * Z.b2z (Z.testbit f 7)
  /\ (marker = 0 -> IsSpanContextDebug (Some sc) = Z.testbit f 0)
  /\ (marker <> 0 -> IsSpanContextDebug (Some sc) = (marker =? 2))
  /\ (marker <> 0 ->
      forall sc', getSpecialFlag sc' = Z.lxor f 1 ->
                  IsSpanContextDebug (Some sc') = IsSpanContextDebug (Some sc)).
Proof.
  intros f marker.
  pose proof (getSpecialFlag_byte sc Hwf) as Hf. fold f in Hf.
  assert (Hold : isOldFormat sc = (marker =? 0)).
  { unfold isOldFormat, spanContext.isOldFormat.
    fold (getSpecialFlag sc). fold f. now apply marker_zero_iff. }
  repeat split.
  - now apply marker_bits.
  - intros H0. unfold IsSpanContextDebug. rewrite Hold, H0. simpl.
    fold f. now apply legacy_bit.
  - intros Hn. unfold IsSpanContextDebug. rewrite Hold.
    destruct (Z.eqb_spec marker 0) as [E|_]; [contradiction|].
    fold f. now apply marker_debug_iff.
  - intros Hn sc' Hflip.
    assert (Hold' : isOldFormat sc' = isOldFormat sc).
    { unfold isOldFormat, spanContext.isOldFormat.
      fold (getSpecialFlag sc') (getSpecialFlag sc). fold f.
      now rewrite Hflip, flip_legacy_keeps_marker. }
    unfold IsSpanContextDebug. rewrite Hold', Hold.
    destruct (Z.eqb_spec marker 0) as [E|_]; [contradiction|].
    fold f. now rewrite Hflip, flip_legacy_keeps_marker.
Qed.

(** C7: [IsSpanContextSampled] is true exactly when the sampled bit
    (bit 1) of the flag byte is set or [IsSpanContextDebug] is true; a
    debug context is sampled whatever its sampled bit, and nil is not
    sampled. *)
Theorem IsSpanContextSampled_iff (sc : SpanContext) (Hwf : wf_iface sc) :
  (IsSpanContextSampled sc = true <->
     (exists s, sc = Some s /\ Z.testbit (getSpecialFlag s) 1 = true)
     \/ IsSpanContextDebug sc = true)
  /\ (IsSpanContextDebug sc = true -> IsSpanContextSampled sc = true)
  /\ IsSpanContextSampled None = false.
Proof.
  destruct sc as [s|]; simpl in *.
  - pose proof (sampled_bit _ (getSpecialFlag_byte s Hwf)) as Hbit.
    rewrite Hbit. repeat split.
    + intros H. apply orb_true_iff in H as [H|H]; [left|now right].
      exists s. now split.
    + intros [(s' & [= <-] & H)|H]; apply orb_true_iff; [now left|now right].
    + intros H. apply orb_true_iff. now right.
  - repeat split; try discriminate.
    intros [(s & [=] & _)|H]; discriminate.
Qed.

(** C10: on a non-nil context each deprecated method returns what the
    standalone decoder of flag.go returns on the same context. *)
Theorem deprecated_methods_agree (sc : spanContext.t) :
  spanContext.IsDebug sc = IsSpanContextDebug (Some sc)
  /\ spanContext.IsSampled sc = IsSpanContextSampled (Some sc)
  /\ spanContext.IsFromStressTest sc = IsSpanContextFromStressTest (Some sc)
  /\ spanContext.GetTypeMarker sc = GetTypeMarker (Some sc).
Proof.
  assert (Hdbg : spanContext.IsDebug sc = IsSpanContextDebug (Some sc)).
  { unfold spanContext.IsDebug, IsSpanContextDebug, isOldFormat.
    rewrite getSpecialFlag_id.
    destruct (spanContext.isOldFormat sc) eqn:Hold; [|reflexivity].
    destruct (Z.eqb_spec
                (Z.land (at_ (spanContext.id sc) (traceIDSize - 1))
                        traceFlagOldDebug) traceFlagOldDebug) as [_|_];
      [reflexivity|].
    (* old format without the legacy bit: the marker is 0, not debug *)
    unfold spanContext.isOldFormat in Hold.
    fold (getSpecialFlag sc) in Hold. rewrite getSpecialFlag_id in Hold.
    apply Z.eqb_eq in Hold. rewrite Hold. reflexivity. }
  repeat split.
  - exact Hdbg.
  - unfold spanContext.IsSampled, IsSpanContextSampled.
    now rewrite getSpecialFlag_id, Hdbg.
  - unfold spanContext.IsFromStressTest, IsSpanContextFromStressTest.
    now rewrite getSpecialFlag_id.
  - unfold spanContext.GetTypeMarker, GetTypeMarker.
    now rewrite getSpecialFlag_id.
Qed.

(** ** Random tails *)

Lemma rand_Read_length (p : list Z) (w : World) :
  length (rand_Read p w).1.1 = length p.
Proof. unfold rand_Read. simpl. now rewrite length_map, length_seq. Qed.

Lemma rand_Read_count (p : list Z) (w : World) :
  (rand_Read p w).1.2 = length p.
Proof. reflexivity. Qed.

Lemma rand_Read_bytes (p : list Z) (w : World) :
  Forall is_byte (rand_Read p w).1.1.
Proof.
  unfold rand_Read. simpl. apply Forall_fmap, Forall_forall.
  intros k _. unfold is_byte, uint8. simpl. apply Z.mod_pos_bound. lia.
Qed.

Lemma scan_prefix_false (l : list Z) :
  scan_prefix l true = false -> exists x rest, l = x :: rest /\ x <> 0.
Proof.
  destruct l as [|x rest]; simpl; [discriminate|].
  destruct (Z.eqb_spec x 0) as [_|Hx]; [discriminate|].
  intros _. now exists x, rest.
Qed.

Lemma scan_prefix_zeros (l : list Z) :
  Forall (eq 0) l -> scan_prefix l true = true.
Proof.
  destruct 1 as [|x rest <- _]; reflexivity.
Qed.

Lemma getRandomBytes_length (bs : list Z) (w : World) :
  length (getRandomBytes bs w).1 = length bs.
Proof.
  unfold getRandomBytes.
  destruct (Nat.eqb_spec (length bs) 0) as [|_]; [reflexivity|].
  pose proof (rand_Read_length bs w) as Hlen.
  destruct (rand_Read bs w) as [[r n] w1]. simpl in Hlen.
  destruct (at_ r (n - 1) =? 0); [|exact Hlen].
  destruct (scan_prefix _ _); simpl; [|exact Hlen].
  now rewrite length_insert.
Qed.

Lemma getRandomBytes_bytes (bs : list Z) (w : World) :
  Forall is_byte bs -> Forall is_byte (getRandomBytes bs w).1.
Proof.
  intros Hbs. unfold getRandomBytes.
  destruct (Nat.eqb_spec (length bs) 0) as [|_]; [exact Hbs|].
  pose proof (rand_Read_bytes bs w) as Hb.
  destruct (rand_Read bs w) as [[r n] w1]. simpl in Hb.
  destruct (at_ r (n - 1) =? 0); [|exact Hb].
  destruct (scan_prefix _ _); simpl; [|exact Hb].
  apply Forall_insert; [exact Hb|]. unfold is_byte. lia.
Qed.

(** The anti-ambiguity rule: a non-empty tail never comes back all zero. *)
Lemma getRandomBytes_nonzero (bs : list Z) (w : World) :
  (0 < length bs)%nat -> ~ Forall (eq 0) (getRandomBytes bs w).1.
Proof.
  intros Hpos. unfold getRandomBytes.
  destruct (Nat.eqb_spec (length bs) 0) as [E|_]; [lia|].
  pose proof (rand_Read_length bs w) as Hlen.
  pose proof (rand_Read_count bs w) as Hn.
  destruct (rand_Read bs w) as [[r n] w1]. simpl in Hlen, Hn. subst n.
  destruct (Z.eqb_spec (at_ r (length bs - 1)) 0) as [Hlast|Hlast].
  - destruct (scan_prefix _ _) eqn:Hscan; simpl; intros Hall.
    + assert (Hl : <[(length bs - 1)%nat := 1]> r !! (length bs - 1)%nat = Some 1).
      { apply list_lookup_insert_eq. lia. }
      now pose proof (Forall_lookup_1 _ _ _ _ Hall Hl).
    + apply scan_prefix_false in Hscan as (x & rest & Hx & Hne).
      apply (Forall_take _ (length bs - 1)%nat) in Hall.
      rewrite Hx in Hall. inversion Hall; subst. congruence.
  - simpl. intros Hall. apply Hlast. unfold at_.
    destruct (r !! (length bs - 1)%nat) as [x|] eqn:E; [|reflexivity].
    simpl. symmetry. exact (Forall_lookup_1 _ _ _ _ Hall E).
Qed.

(** When the draw is all zero its last byte is forced to 1. *)
Lemma getRandomBytes_forced (bs : list Z) (w : World) :
  (0 < length bs)%nat ->
  Forall (eq 0) (rand_Read bs w).1.1 ->
  (getRandomBytes bs w).1 = <[(length bs - 1)%nat := 1]> (rand_Read bs w).1.1.
Proof.
  intros Hpos Hall. unfold getRandomBytes.
  destruct (Nat.eqb_spec (length bs) 0) as [E|_]; [lia|].
  pose proof (rand_Read_count bs w) as Hn.
  destruct (rand_Read bs w) as [[r n] w1]. simpl in Hall, Hn |- *. subst n.
  assert (Hlast : at_ r (length bs - 1) = 0).
  { unfold at_. destruct (r !! (length bs - 1)%nat) as [x|] eqn:E; [|reflexivity].
    simpl. symmetry. exact (Forall_lookup_1 _ _ _ _ Hall E). }
  rewrite Hlast. simpl.
  rewrite scan_prefix_zeros; [reflexivity|]. now apply Forall_take.
Qed.

(** The draw overwrites the whole slice: only its length matters. *)
Lemma getRandomBytes_ext (bs bs' : list Z) (w : World) :
  length bs = length bs' -> (0 < length bs)%nat ->
  getRandomBytes bs w = getRandomBytes bs' w.
Proof.
  intros Hlen Hpos. unfold getRandomBytes, rand_Read. rewrite <- Hlen.
  destruct (Nat.eqb_spec (length bs) 0) as [E|_]; [lia|reflexivity].
Qed.

(** ** SpanIDs *)

(** Destructs a list whose length is known into its elements. *)
Ltac explode l H :=
  repeat (destruct l as [|? l]; simpl in H; try discriminate H; try lia).

Lemma newSpanID_spec (spanID : list Z) (level sequenceID : Z) (w : World) :
  (8 <= length spanID)%nat ->
  newSpanID spanID level sequenceID w =
  (level
     :: (if 0 <? sequenceID then uint8 (Z.shiftr sequenceID 8) else at_ spanID 1)
     :: (if 0 <? sequenceID then uint8 sequenceID else at_ spanID 2)
     :: (getRandomBytes (zeros 5) w).1 ++ drop 8 spanID,
   (getRandomBytes (zeros 5) w).2).
Proof.
  intros Hlen.
  destruct spanID as [|a0 [|a1 [|a2 [|a3 [|a4 [|a5 [|a6 [|a7 rest]]]]]]]];
    simpl in Hlen; try lia.
  unfold newSpanID.
  destruct (0 <? sequenceID); cbn [list_insert insert];
    rewrite (getRandomBytes_ext _ (zeros 5) w) by (simpl; lia);
    destruct (getRandomBytes (zeros 5) w) as [tail w1]; reflexivity.
Qed.

Lemma uint16_split (c : Z) :
  0 <= c < 65536 ->
  (if 0 <? c then uint8 (Z.shiftr c 8) else 0) * 256
  + (if 0 <? c then uint8 c else 0) = c.
Proof.
  intros Hc. destruct (Z.ltb_spec 0 c) as [Hpos|Hz]; [|lia].
  unfold uint8. rewrite Z.shiftr_div_pow2 by lia.
  change (2 ^ 8) with 256.
  rewrite (Z.mod_small (c / 256)).
  - pose proof (Z.div_mod c 256). lia.
  - split; [apply Z.div_pos; lia|].
    apply Z.div_lt_upper_bound; lia.
Qed.

(** What [NewChildSpanContext] builds from a context with a 32-byte id. *)
Lemma NewChildSpanContext_spec (sc : spanContext.t) (w : World) :
  length (spanContext.id sc) = totalIDSize ->
  let c := spanContext.childSequenceID sc in
  spanContext.NewChildSpanContext sc w =
  ({| spanContext.childSequenceID := 0;
      spanContext.id :=
        spanContext.TraceID sc
          ++ (uint8 (spanContext.level sc + 1)
                :: (if 0 <? c then uint8 (Z.shiftr c 8) else 0)
                :: (if 0 <? c then uint8 c else 0)
                :: (getRandomBytes (zeros 5) w).1)
          ++ spanContext.SpanID sc |},
   {| spanContext.childSequenceID := uint16 (c + 1);
      spanContext.id := spanContext.id sc |},
   (getRandomBytes (zeros 5) w).2).
Proof.
  intros Hlen c. unfold spanContext.NewChildSpanContext.
  destruct sc as [cnt l]. simpl in *. subst c.
  rewrite newSpanID_spec.
  2:{ unfold copy, spanContext.TraceID, zeros, totalIDSize, spanIDSize,
        traceIDSize. simpl spanContext.id.
      rewrite length_take, length_drop, length_app, length_take, length_drop,
        length_take, !length_replicate. cbn in Hlen. lia. }
  pose proof (getRandomBytes_length (zeros 5) w) as Htl.
  destruct (getRandomBytes (zeros 5) w) as [tail w1]. simpl in Htl |- *.
  explode tail Htl. explode l Hlen.
  destruct (0 <? cnt); reflexivity.
Qed.

(** ** Hierarchy *)

Lemma wf_length (sc : spanContext.t) :
  wf sc -> length (spanContext.id sc) = totalIDSize.
Proof. now intros (H & _). Qed.

Lemma level_byte (sc : spanContext.t) : wf sc -> is_byte (spanContext.level sc).
Proof. intros (_ & Hb & _). now apply at_is_byte. Qed.

(** C4 (amended): the child keeps the parent's TraceID byte for byte
    (flag byte included), its ParentID is the parent's SpanID, and its
    level byte is the parent's level plus 1 modulo 256: plus 1 below level
    255, and 0 after level 255. *)
Theorem NewChildSpanContext_hierarchy
    (parent : spanContext.t) (w : World) (Hwf : wf parent) :
  let child := (spanContext.NewChildSpanContext parent w).1.1 in
  spanContext.TraceID child = spanContext.TraceID parent
  /\ getSpecialFlag child = getSpecialFlag parent
  /\ spanContext.ParentID child = spanContext.SpanID parent
  /\ spanContext.level child = (spanContext.level parent + 1) mod 256
  /\ (spanContext.level parent < 255 ->
      spanContext.level child = spanContext.level parent + 1).
Proof.
  intros child.
  pose proof (level_byte parent Hwf) as Hlvl.
  pose proof (wf_length parent Hwf) as Hlen.
  assert (Hid : spanContext.id child
                = spanContext.TraceID parent
                    ++ (uint8 (spanContext.level parent + 1)
                          :: drop 1 (spanContext.SpanID child))
                    ++ spanContext.SpanID parent
                /\ length (spanContext.SpanID child) = 8%nat).
  { subst child. rewrite (NewChildSpanContext_spec parent w Hlen). simpl.
    pose proof (getRandomBytes_length (zeros 5) w) as Htl.
    destruct (getRandomBytes (zeros 5) w) as [tail w1]. simpl in Htl |- *.
    destruct parent as [cnt l]. simpl in *.
    explode tail Htl. explode l Hlen. split; reflexivity. }
  destruct Hid as [Hid Hsp].
  assert (Hlen16 : length (spanContext.TraceID parent) = 16%nat).
  { unfold spanContext.TraceID. rewrite length_take, Hlen. reflexivity. }
  assert (Htrace : spanContext.TraceID child = spanContext.TraceID parent).
  { unfold spanContext.TraceID at 1. rewrite Hid.
    now rewrite take_app_length' by (symmetry; exact Hlen16). }
  assert (Hchild : spanContext.level child = uint8 (spanContext.level parent + 1)).
  { unfold spanContext.level, at_. rewrite Hid.
    rewrite lookup_app_r by (rewrite Hlen16; unfold traceIDSize; lia).
    rewrite Hlen16. reflexivity. }
  repeat split.
  - exact Htrace.
  - unfold getSpecialFlag, spanContext.getSpecialFlag. now rewrite Htrace.
  - unfold spanContext.ParentID. rewrite Hid.
    rewrite app_assoc. apply drop_app_length'.
    rewrite length_app, Hlen16. simpl. rewrite length_drop, Hsp. reflexivity.
  - exact Hchild.
  - intros Hsmall. rewrite Hchild. unfold uint8, is_byte in *.
    apply Z.mod_small. lia.
Qed.

Lemma wf_deep_context : wf deep_context.
Proof.
  split; [reflexivity|]. split; [|simpl; lia].
  unfold deep_context. simpl.
  repeat (constructor; [unfold is_byte; lia|]). constructor.
Qed.

Lemma NewChildSpanContext_hierarchy_witness :
  wf deep_context
  /\ spanContext.ParentID (spanContext.NewChildSpanContext deep_context zero_world).1.1
     = spanContext.SpanID deep_context.
Proof.
  split; [exact wf_deep_context|].
  apply (NewChildSpanContext_hierarchy deep_context zero_world wf_deep_context).
Defined.

(** C4 as stated fails on a parent at level 255: the child's level byte
    is 0, not 256. *)
Lemma child_level_wraps :
  wf deep_context
  /\ spanContext.level (spanContext.NewChildSpanContext deep_context zero_world).1.1
     <> spanContext.level deep_context + 1.
Proof.
  split; [exact wf_deep_context|]. vm_compute. discriminate.
Qed.

(** ** Sequence numbers *)


Lemma child_sequence (sc : spanContext.t) (w : World) :
  wf sc ->
  sequenceOf (spanContext.NewChildSpanContext sc w).1.1
  = spanContext.childSequenceID sc
  /\ spanContext.childSequenceID (spanContext.NewChildSpanContext sc w).1.1 = 0.
Proof.
  intros (Hlen & _ & Hc).
  rewrite (NewChildSpanContext_spec sc w Hlen). cbn [fst snd].
  split; [|reflexivity].
  etransitivity; [|exact (uint16_split _ Hc)].
  pose proof (getRandomBytes_length (zeros 5) w) as Htl.
  destruct (getRandomBytes (zeros 5) w) as [tail w1]. simpl in Htl.
  destruct sc as [cnt l]. simpl in *.
  explode tail Htl. explode l Hlen. reflexivity.
Qed.

Lemma parent_after_child (sc : spanContext.t) (w : World) :
  wf sc ->
  wf (spanContext.NewChildSpanContext sc w).1.2
  /\ spanContext.childSequenceID (spanContext.NewChildSpanContext sc w).1.2
     = uint16 (spanContext.childSequenceID sc + 1).
Proof.
  intros (Hlen & Hb & Hc).
  rewrite (NewChildSpanContext_spec sc w Hlen). cbn [fst snd].
  split; [|reflexivity].
  repeat split; try assumption; simpl; unfold uint16;
    apply Z.mod_pos_bound; lia.
Qed.





(** ** Root contexts *)

Lemma copy_length {A} (dst src : list A) : length (copy dst src) = length dst.
Proof.
  unfold copy. rewrite length_app, length_take, length_drop. lia.
Qed.

Lemma copy_full {A} (dst src : list A) :
  length src = length dst -> copy dst src = src.
Proof.
  intros Hlen. unfold copy.
  rewrite take_ge, drop_ge by lia. apply app_nil_r.
Qed.

(** The layout [newSpanContextID] leaves in a 32-byte array: the flag at
    byte 15, level 0 at byte 16, a random tail in bytes 19-23. *)
Lemma newSpanContextID_shape (scg : cachedSpanContextGenerator.t)
    (flag : Z) (w : World) :
  let scID := (newSpanContextID scg (zeros totalIDSize) flag w).1 in
  length scID = totalIDSize
  /\ at_ scID 15 = flag
  /\ at_ scID 16 = 0
  /\ exists w1, drop 19 (take 24 scID) = (getRandomBytes (zeros 5) w1).1.
Proof.
  unfold newSpanContextID.
  pose proof (copy_length (zeros totalIDSize)
                (cachedSpanContextGenerator.instanceIDHash scg)) as Hlen.
  set (s0 := copy _ _) in *. clearbody s0.
  change (length (zeros totalIDSize)) with 32%nat in Hlen.
  explode s0 Hlen.
  cbn [time_Now_UnixNano list_insert insert].
  set (w0 := Build_World _ _ _ _ _ _).
  rewrite (getRandomBytes_ext _ (zeros 5) w0) by (simpl; lia).
  pose proof (getRandomBytes_length (zeros 5) w0) as Htl.
  destruct (getRandomBytes (zeros 5) w0) as [rnd w1]. simpl in Htl.
  explode rnd Htl.
  cbn [take drop firstn skipn app traceIDSize Nat.sub list_insert insert].
  rewrite newSpanID_spec by (simpl; lia).
  pose proof (getRandomBytes_length (zeros 5) w1) as Htl2.
  assert (Hex : exists w', (getRandomBytes (zeros 5) w1).1
                           = (getRandomBytes (zeros 5) w').1) by now exists w1.
  destruct (getRandomBytes (zeros 5) w1) as [tail w2]. simpl in Htl2, Hex.
  explode tail Htl2.
  cbn. repeat split. exact Hex.
Qed.

Lemma root_flag (scg : cachedSpanContextGenerator.t)
    (options : list SpanContextOption) (w : World) :
  let sco := applyOptions options in
  getSpecialFlag (NewSpanContext scg options w).1
  = (setSingleFlags sco (setTypeMarker sco 0) scg w).1.
Proof.
  intros sco. unfold NewSpanContext. fold sco.
  destruct (setSingleFlags sco (setTypeMarker sco 0) scg w) as [tf w1].
  pose proof (newSpanContextID_shape scg tf w1) as (_ & Hflag & _).
  destruct (newSpanContextID scg (zeros totalIDSize) tf w1) as [scID w2].
  rewrite getSpecialFlag_id. exact Hflag.
Qed.

(** With [IsDebug] set the flag byte is 1, 3, 5 or 7: the legacy bit,
    plus the sampled and critical bits. *)
Lemma debug_flag_values (sco : SpanContextOptions.t)
    (scg : cachedSpanContextGenerator.t) (w : World) :
  SpanContextOptions.IsDebug sco = true ->
  (setSingleFlags sco (setTypeMarker sco 0) scg w).1 ∈ [1; 3; 5; 7].
Proof.
  intros Hd. unfold setTypeMarker, setSingleFlags. rewrite Hd.
  destruct (SpanContextOptions.IsSampled sco) as [[|]|];
    [| |destruct (Sampler_IsSampled _ w) as [[|] w1]];
    destruct (SpanContextOptions.IsCritical sco); cbn;
    repeat (first [apply list_elem_of_here | apply list_elem_of_further]).
Qed.

(** C1 (amended): with the [IsDebug] option set (and [IsFromStressTest]
    set as well) debug wins, but what is set is the legacy debug bit
    (bit 0); the type-marker bits stay 0. [GetTypeMarker] returns 0,
    [IsSpanContextDebug] is true through the legacy fallback, and the
    context is neither stress-test nor shadow, so no marker value 2-4 is
    set. *)
Theorem debug_option_sets_legacy_bit
    (scg : cachedSpanContextGenerator.t) (options : list SpanContextOption)
    (w : World)
    (Hdebug : SpanContextOptions.IsDebug (applyOptions options) = true)
    (Hstress : SpanContextOptions.IsFromStressTest (applyOptions options) = true) :
  let sc := (NewSpanContext scg options w).1 in
  GetTypeMarker (Some sc) = 0
  /\ Z.testbit (getSpecialFlag sc) 0 = true
  /\ IsSpanContextDebug (Some sc) = true
  /\ IsSpanContextFromStressTest (Some sc) = false
  /\ IsSpanContextShadow (Some sc) = false.
Proof.
  intros sc.
  pose proof (root_flag scg options w) as Hflag. cbv zeta in Hflag. fold sc in Hflag.
  pose proof (debug_flag_values _ scg w Hdebug) as Hin.
  rewrite <- Hflag in Hin. clear Hflag Hstress.
  unfold GetTypeMarker, IsSpanContextDebug, IsSpanContextFromStressTest,
    IsSpanContextShadow, isOldFormat, spanContext.isOldFormat.
  fold (getSpecialFlag sc).
  repeat (apply elem_of_cons in Hin as [->|Hin]; [now vm_compute|]).
  now apply elem_of_nil in Hin.
Qed.

Lemma debug_option_sets_legacy_bit_witness :
  GetTypeMarker
    (Some (NewSpanContext sample_generator
             [IsDebug true; IsFromStressTest true] sample_world).1) = 0.
Proof.
  apply (debug_option_sets_legacy_bit sample_generator
           [IsDebug true; IsFromStressTest true] sample_world);
    reflexivity.
Defined.

(** C1 as stated fails: with both options set the type marker is not the
    debug value 2. *)
Lemma debug_marker_not_set :
  GetTypeMarker
    (Some (NewSpanContext sample_generator
             [IsDebug true; IsFromStressTest true] sample_world).1) <> 2.
Proof. vm_compute. discriminate. Qed.

(** C9: the SpanID of a context made by the generator or by derivation is
    never all zero. Its 5-byte tail comes from [getRandomBytes], which
    never returns all zeros: when the draw is all zero the last byte is
    forced to 1. *)
Theorem SpanID_never_all_zero
    (scg : cachedSpanContextGenerator.t) (options : list SpanContextOption)
    (parent : spanContext.t) (w : World) :
  let root := (NewSpanContext scg options w).1 in
  let child := (spanContext.NewChildSpanContext parent w).1.1 in
  ~ Forall (eq 0) (spanContext.SpanID root)
  /\ ~ Forall (eq 0) (spanContext.SpanID child)
  /\ (exists w1, drop 3 (spanContext.SpanID root)
                 = (getRandomBytes (zeros 5) w1).1)
  /\ drop 3 (spanContext.SpanID child) = (getRandomBytes (zeros 5) w).1
  /\ (forall w1, ~ Forall (eq 0) (getRandomBytes (zeros 5) w1).1)
  /\ (forall w1, Forall (eq 0) (rand_Read (zeros 5) w1).1.1 ->
                 (getRandomBytes (zeros 5) w1).1 = [0; 0; 0; 0; 1]).
Proof.
  intros root child.
  assert (Hnz : forall w1, ~ Forall (eq 0) (getRandomBytes (zeros 5) w1).1).
  { intros w1. apply getRandomBytes_nonzero. simpl. lia. }
  assert (Hroot : exists w1, drop 3 (spanContext.SpanID root)
                             = (getRandomBytes (zeros 5) w1).1).
  { subst root. unfold NewSpanContext.
    destruct (setSingleFlags _ _ scg w) as [tf w1].
    pose proof (newSpanContextID_shape scg tf w1) as (Hlen & _ & _ & w2 & Htail).
    destruct (newSpanContextID scg (zeros totalIDSize) tf w1) as [scID w3].
    cbn [fst snd] in *. exists w2. rewrite <- Htail.
    unfold spanContext.SpanID. simpl spanContext.id.
    explode scID Hlen. reflexivity. }
  assert (Hsp : spanContext.SpanID child
                = drop 16 (take 24 (spanContext.id child))).
  { unfold spanContext.SpanID, spanIDSize, traceIDSize.
    now rewrite skipn_firstn_comm. }
  assert (Hchild : drop 3 (spanContext.SpanID child)
                   = (getRandomBytes (zeros 5) w).1).
  { rewrite Hsp. subst child. unfold spanContext.NewChildSpanContext.
    set (cid := copy (zeros totalIDSize) (spanContext.TraceID parent)).
    pose proof (copy_length (zeros totalIDSize) (spanContext.TraceID parent))
      as Hlen.
    fold cid in Hlen. clearbody cid.
    change (length (zeros totalIDSize)) with 32%nat in Hlen.
    explode cid Hlen.
    rewrite newSpanID_spec by (simpl; lia).
    pose proof (getRandomBytes_length (zeros 5) w) as Htl.
    destruct (getRandomBytes (zeros 5) w) as [tail w1]. simpl in Htl.
    explode tail Htl. reflexivity. }
  repeat split.
  - destruct Hroot as [w1 Hw1]. intros Hall.
    apply (Hnz w1). rewrite <- Hw1. now apply Forall_drop.
  - intros Hall. apply (Hnz w). rewrite <- Hchild. now apply Forall_drop.
  - exact Hroot.
  - exact Hchild.
  - exact Hnz.
  - intros w1 Hall.
    rewrite getRandomBytes_forced by (simpl; lia || exact Hall).
    pose proof (rand_Read_length (zeros 5) w1) as Hl.
    destruct (rand_Read (zeros 5) w1) as [[r n] w2]. simpl in *.
    explode r Hl.
    repeat match goal with H : Forall _ (_ :: _) |- _ =>
      apply Forall_cons in H as [<- H] end.
    reflexivity.
Qed.



Lemma wf_sample_root : wf sample_root.
Proof.
  split; [reflexivity|]. split.
  - vm_compute.
    repeat (constructor; [split; [discriminate|reflexivity]|]). constructor.
  - change (spanContext.childSequenceID sample_root) with 0. lia.
Qed.



(** ** Hexadecimal text *)

Lemma hex_digits_cons (v : Z) (src : list Z) :
  hex_digits (v :: src)
  = hexdigit (Z.shiftr v 4) :: hexdigit (Z.land v 15) :: hex_digits src.
Proof. reflexivity. Qed.

Lemma hex_digits_length (src : list Z) :
  length (hex_digits src) = (2 * length src)%nat.
Proof.
  induction src as [|v src IH]; [reflexivity|].
  rewrite hex_digits_cons. simpl. rewrite IH. lia.
Qed.

Lemma hexdigit_not_colon (n : Z) : hexdigit n <> ":"%char.
Proof.
  unfold hexdigit. generalize (Z.to_nat n). intros m.
  do 16 (destruct m as [|m]; [vm_compute; discriminate|]).
  vm_compute. discriminate.
Qed.

Lemma hex_digits_no_colon (src : list Z) : ":"%char ∉ hex_digits src.
Proof.
  induction src as [|v src IH]; [apply not_elem_of_nil|].
  rewrite hex_digits_cons, !not_elem_of_cons.
  repeat split; [| |exact IH]; apply not_eq_sym, hexdigit_not_colon.
Qed.

(** Decoding the two digits of a byte gives the byte back. *)
Lemma hex_digit_pair (v : Z) :
  is_byte v ->
  (15 <? reverseHexTable (hexdigit (Z.shiftr v 4))) = false
  /\ (15 <? reverseHexTable (hexdigit (Z.land v 15))) = false
  /\ Z.lor (uint8 (Z.shiftl (reverseHexTable (hexdigit (Z.shiftr v 4))) 4))
           (reverseHexTable (hexdigit (Z.land v 15))) = v.
Proof. revert v. by_byte_cases. Qed.

Lemma hex_Encode_from_spec (src : list Z) :
  forall (j : nat) (dst : list ascii),
    (j + 2 * length src <= length dst)%nat ->
    hex_Encode_from j dst src
    = take j dst ++ hex_digits src ++ drop (j + 2 * length src) dst.
Proof.
  induction src as [|v src IH]; intros j dst Hlen.
  - simpl. rewrite Nat.add_0_r. now rewrite take_drop.
  - simpl in Hlen. cbn [hex_Encode_from]. rewrite IH
      by (rewrite !length_insert; lia).
    rewrite hex_digits_cons.
    rewrite !drop_insert_lt by lia.
    rewrite (take_S_r _ (S j) (hexdigit (Z.land v 15)))
      by (apply list_lookup_insert_eq; rewrite length_insert; lia).
    rewrite take_insert_ge by lia.
    rewrite (take_S_r _ j (hexdigit (Z.shiftr v 4)))
      by (apply list_lookup_insert_eq; lia).
    rewrite take_insert_ge by lia.
    rewrite <- !app_assoc. simpl. repeat (f_equal; try lia).
Qed.

Lemma hex_Decode_from_spec (l : list Z) :
  forall (i : nat) (dst : list Z),
    Forall is_byte l ->
    (i + length l <= length dst)%nat ->
    hex_Decode_from i dst (hex_digits l)
    = Ok (take i dst ++ l ++ drop (i + length l) dst).
Proof.
  induction l as [|v l IH]; intros i dst Hb Hlen.
  - simpl. rewrite Nat.add_0_r. now rewrite take_drop.
  - apply Forall_cons in Hb as [Hv Hb]. simpl in Hlen.
    destruct (hex_digit_pair v Hv) as (Ha & Hq & Hval).
    rewrite hex_digits_cons. cbn [hex_Decode_from]. rewrite Ha, Hq, Hval.
    destruct (Nat.ltb_spec i (length dst)) as [_|]; [|lia].
    rewrite IH by (try rewrite length_insert; assumption || lia).
    rewrite drop_insert_lt by lia.
    rewrite (take_S_r _ i v) by (apply list_lookup_insert_eq; lia).
    rewrite take_insert_ge by lia.
    rewrite <- app_assoc. simpl. repeat (f_equal; try lia).
Qed.

Lemma hex_Decode_digits (dst l : list Z) :
  Forall is_byte l -> (length l <= length dst)%nat ->
  hex_Decode dst (hex_digits l) = Ok (l ++ drop (length l) dst).
Proof.
  intros Hb Hlen. unfold hex_Decode.
  now rewrite hex_Decode_from_spec by (assumption || simpl; lia).
Qed.

(** ** Separators *)

Lemma strings_Index_absent (data : list ascii) (c : ascii) :
  c ∉ data -> strings_Index data c = -1.
Proof.
  induction data as [|a data IH]; [reflexivity|].
  intros Hn. apply not_elem_of_cons in Hn as [Hne Hn]. simpl.
  rewrite (proj2 (Ascii.eqb_neq a c)) by congruence.
  now rewrite IH.
Qed.

Lemma strings_Index_first (l1 l2 : list ascii) (c : ascii) :
  c ∉ l1 -> strings_Index (l1 ++ c :: l2) c = Z.of_nat (length l1).
Proof.
  induction l1 as [|a l1 IH]; intros Hn; simpl.
  - now rewrite Ascii.eqb_refl.
  - apply not_elem_of_cons in Hn as [Hne Hn].
    rewrite (proj2 (Ascii.eqb_neq a c)) by congruence.
    rewrite IH by assumption.
    destruct (Z.ltb_spec (Z.of_nat (length l1)) 0); lia.
Qed.

Lemma strings_LastIndex_absent (data : list ascii) (c : ascii) :
  c ∉ data -> strings_LastIndex data c = -1.
Proof.
  induction data as [|a data IH]; [reflexivity|].
  intros Hn. apply not_elem_of_cons in Hn as [Hne Hn]. simpl.
  rewrite IH by assumption. simpl.
  now rewrite (proj2 (Ascii.eqb_neq a c)) by congruence.
Qed.

Lemma strings_LastIndex_last (l1 l2 : list ascii) (c : ascii) :
  c ∉ l2 -> strings_LastIndex (l1 ++ c :: l2) c = Z.of_nat (length l1).
Proof.
  intros Hn. induction l1 as [|a l1 IH]; simpl.
  - rewrite strings_LastIndex_absent by assumption. simpl.
    now rewrite Ascii.eqb_refl.
  - rewrite IH.
    destruct (Z.leb_spec 0 (Z.of_nat (length l1))); lia.
Qed.

(** ** Serialization *)

(** [String()] is the three hex segments joined by colons. *)
Lemma String_spec (sc : spanContext.t) :
  length (spanContext.id sc) = totalIDSize ->
  list_ascii_of_string (spanContext.String sc)
  = hex_digits (spanContext.TraceID sc)
      ++ ":"%char :: hex_digits (spanContext.SpanID sc)
      ++ ":"%char :: hex_digits (spanContext.ParentID sc).
Proof.
  intros Hlen. unfold spanContext.String.
  rewrite list_ascii_of_string_of_list_ascii.
  destruct sc as [cnt l]. simpl in Hlen.
  explode l Hlen. reflexivity.
Qed.

Section Joined.
Context {A : Type} (a b c : list A) (x : A).

Lemma slice_first : slice ((a ++ x :: b) ++ x :: c) 0 (Z.of_nat (length a)) = Ok a.
  Proof.
    unfold slice.
    rewrite ?length_app; cbn [length]; rewrite ?length_app; cbn [length].
    destruct (_ && _) eqn:E.
    - rewrite Z.sub_0_r, Nat2Z.id. change (Z.to_nat 0) with 0%nat. rewrite drop_0.
      now rewrite <- app_assoc, take_app_length.
    - apply andb_false_iff in E as [E|E];
        [apply andb_false_iff in E as [E|E]|]; apply Z.leb_gt in E; lia.
  Qed.

Lemma slice_middle :
    slice ((a ++ x :: b) ++ x :: c)
      (Z.of_nat (length a) + 1) (Z.of_nat (length (a ++ x :: b)))
    = Ok b.
  Proof.
    unfold slice.
    rewrite ?length_app; cbn [length]; rewrite ?length_app; cbn [length].
    destruct (_ && _) eqn:E.
    - replace (Z.to_nat (Z.of_nat (length a) + 1)) with (length a + 1)%nat by lia.
      replace (Z.to_nat _) with (length b) by lia.
      rewrite <- app_assoc, drop_app_add.
      change (drop 1 ((x :: b) ++ x :: c)) with (b ++ x :: c).
      now rewrite take_app_length.
    - apply andb_false_iff in E as [E|E];
        [apply andb_false_iff in E as [E|E]|]; apply Z.leb_gt in E; lia.
  Qed.

Lemma slice_last :
    slice ((a ++ x :: b) ++ x :: c)
      (Z.of_nat (length (a ++ x :: b)) + 1)
      (Z.of_nat (length ((a ++ x :: b) ++ x :: c)))
    = Ok c.
  Proof.
    unfold slice.
    rewrite ?length_app; cbn [length]; rewrite ?length_app; cbn [length].
    destruct (_ && _) eqn:E.
    - replace (Z.to_nat (Z.of_nat (length a + S (length b)) + 1))
        with (length (a ++ x :: b) + 1)%nat
        by (rewrite length_app; simpl; lia).
      replace (Z.to_nat _) with (length c) by lia.
      rewrite drop_app_add.
      change (drop 1 (x :: c)) with c. apply f_equal, take_ge. lia.
    - apply andb_false_iff in E as [E|E];
        [apply andb_false_iff in E as [E|E]|]; apply Z.leb_gt in E; lia.
  Qed.

End Joined.

(** Parsing three joined hex segments of 16, 8 and 8 bytes. *)
Lemma parse_joined (tr sp pa : list Z) :
  length tr = 16%nat -> length sp = 8%nat -> length pa = 8%nat ->
  Forall is_byte tr -> Forall is_byte sp -> Forall is_byte pa ->
  NewSpanContextFromString
    (string_of_list_ascii
       (hex_digits tr ++ ":"%char :: hex_digits sp ++ ":"%char :: hex_digits pa))
  = Ok {| spanContext.childSequenceID := 0; spanContext.id := tr ++ sp ++ pa |}.
Proof.
  intros HT HS HP HbT HbS HbP.
  unfold NewSpanContextFromString.
  rewrite list_ascii_of_string_of_list_ascii.
  rewrite (app_comm_cons (hex_digits sp)), app_assoc.
  rewrite strings_LastIndex_last by apply hex_digits_no_colon.
  rewrite <- app_assoc, <- app_comm_cons.
  rewrite strings_Index_first by apply hex_digits_no_colon.
  rewrite (app_comm_cons (hex_digits sp)), app_assoc.
  match goal with
  | |- context [?n =? 0] => destruct (Z.eqb_spec n 0) as [E|_]
  end.
  { rewrite length_app in E. simpl in E. lia. }
  rewrite Z.geb_leb.
  destruct (Z.leb_spec (Z.of_nat (length (hex_digits tr ++ ":"%char :: hex_digits sp)))
              (Z.of_nat (length (hex_digits tr)))) as [E|_].
  { rewrite length_app in E. simpl in E. lia. }
  rewrite slice_first, slice_middle, slice_last.
  cbn [mbind outcome_bind].
  rewrite hex_Decode_digits by (exact HbT || (rewrite HT; simpl; lia)).
  cbn [mbind outcome_bind].
  explode tr HT.
  rewrite hex_Decode_digits by (exact HbS || (rewrite HS; simpl; lia)).
  cbn [mbind outcome_bind].
  explode sp HS.
  rewrite hex_Decode_digits by (exact HbP || (rewrite HP; simpl; lia)).
  explode pa HP. reflexivity.
Qed.

Lemma id_segments (sc : spanContext.t) :
  spanContext.TraceID sc ++ spanContext.SpanID sc ++ spanContext.ParentID sc
  = spanContext.id sc.
Proof.
  unfold spanContext.TraceID, spanContext.SpanID, spanContext.ParentID.
  rewrite <- (drop_drop (spanContext.id sc)), take_drop. apply take_drop.
Qed.

(** C3: both serializations round-trip: parsing [Bytes()] and parsing
    [String()] succeed and give a context whose 32-byte identifier (the
    field [id]) is the one of [sc], byte for byte, with a fresh counter. *)
Theorem serialization_round_trip (sc : spanContext.t) (Hwf : wf sc) :
  (exists sc', NewSpanContextFromBytes (spanContext.Bytes sc) = Ok sc'
               /\ spanContext.id sc' = spanContext.id sc
               /\ spanContext.childSequenceID sc' = 0)
  /\ (exists sc', NewSpanContextFromString (spanContext.String sc) = Ok sc'
                  /\ spanContext.id sc' = spanContext.id sc
                  /\ spanContext.childSequenceID sc' = 0).
Proof.
  destruct Hwf as (Hlen & Hb & _). split.
  - exists {| spanContext.childSequenceID := 0;
              spanContext.id := spanContext.id sc |}.
    split; [|split; reflexivity].
    unfold NewSpanContextFromBytes, spanContext.Bytes.
    rewrite Hlen, Nat.eqb_refl. cbn [negb].
    rewrite copy_full; [reflexivity|]. now rewrite Hlen.
  - exists {| spanContext.childSequenceID := 0;
              spanContext.id := spanContext.id sc |}.
    split; [|split; reflexivity].
    rewrite <- (string_of_list_ascii_of_string (spanContext.String sc)).
    rewrite (String_spec sc Hlen), <- (id_segments sc) at 1.
    unfold totalIDSize, traceIDSize, spanIDSize in Hlen.
    apply parse_joined.
    + unfold spanContext.TraceID, traceIDSize. rewrite length_take. lia.
    + unfold spanContext.SpanID, traceIDSize, spanIDSize.
      rewrite length_take, length_drop. lia.
    + unfold spanContext.ParentID, traceIDSize, spanIDSize.
      rewrite length_drop. lia.
    + now apply Forall_take.
    + now apply Forall_take, Forall_drop.
    + now apply Forall_drop.
Qed.

Lemma serialization_round_trip_witness :
  wf sample_root
  /\ exists sc', NewSpanContextFromString (spanContext.String sample_root) = Ok sc'
                 /\ spanContext.id sc' = spanContext.id sample_root
                 /\ spanContext.childSequenceID sc' = 0.
Proof.
  split; [exact wf_sample_root|].
  apply (serialization_round_trip sample_root wf_sample_root).
Defined.

(** ** Parsing text without length checks *)

(** C2: [NewSpanContextFromString] does not check segment lengths (unlike
    [NewSpanContextFromBytes], which checks its length). Short segments
    are accepted, the missing bytes left zero, and an over-long segment
    makes [hex.Decode] store past the end of its destination: a panic. *)
Theorem NewSpanContextFromString_unchecked_lengths :
  NewSpanContextFromString "::"
  = Ok {| spanContext.childSequenceID := 0; spanContext.id := zeros 32 |}
  /\ NewSpanContextFromString "ab:cd:ef"
     = Ok {| spanContext.childSequenceID := 0;
             spanContext.id := [171] ++ zeros 15 ++ [205] ++ zeros 7
                                 ++ [239] ++ zeros 7 |}
  /\ NewSpanContextFromString "::000000000000000000" = Panic
  /\ NewSpanContextFromBytes [171; 205; 239] = Fail errConvertToSpanContext.
Proof. repeat split. Qed.

(** ** The probabilistic sampler *)

Lemma SFcompare_antisym (x y : float64) :
  SFcompare y x = option_map CompOpp (SFcompare x y).
Proof.
  destruct x as [s|s| |s m e], y as [s'|s'| |s' m' e'];
    try destruct s; try destruct s'; try reflexivity; simpl;
    rewrite (Z.compare_antisym e e'); destruct (e ?= e'); simpl;
    try reflexivity;
    change (PosDef.Pos.compare_cont Eq m' m) with (Pos.compare m' m);
    change (PosDef.Pos.compare_cont Eq m m') with (Pos.compare m m');
    now rewrite (Pos.compare_antisym m m'), ?CompOpp_involutive.
Qed.

Lemma SFltb_SFleb (x y : float64) : SFltb x y = true -> SFleb x y = true.
Proof.
  unfold SFltb, SFleb. now destruct (SFcompare x y) as [[| |]|].
Qed.

Lemma SFleb_not_SFltb (x y : float64) : SFleb x y = true -> SFltb y x = false.
Proof.
  unfold SFltb, SFleb. rewrite (SFcompare_antisym x y).
  now destruct (SFcompare x y) as [[| |]|].
Qed.

(** The stored rate, for a rate that is not NaN: 1 unless rate < 1, and
    then 0 unless 0 < rate. *)
Lemma clamp_spec (rate : float64) :
  IsNaN rate = false ->
  math_Max f64_zero (math_Min rate f64_one)
  = if SFltb rate f64_one
    then (if SFltb f64_zero rate then rate else f64_zero)
    else f64_one.
Proof.
  intros Hnan.
  destruct rate as [[|]|[|]| |s m e]; try discriminate; try reflexivity.
  unfold math_Min. cbn [IsInf IsNaN is_zero orb andb].
  destruct (SFltb (S754_finite s m e) f64_one); [|reflexivity].
  destruct s; reflexivity.
Qed.

Lemma SFcompare_refl (x : float64) :
  IsNaN x = false -> SFcompare x x = Some Eq.
Proof.
  destruct x as [[|]|[|]| |[|] m e]; try discriminate; try reflexivity;
    intros _; simpl; rewrite Z.compare_refl;
    change (PosDef.Pos.compare_cont Eq m m) with (Pos.compare m m);
    now rewrite Pos.compare_refl.
Qed.

Lemma SFcompare_zero_Eq (x : float64) :
  SFcompare f64_zero x = Some Eq -> exists s, x = S754_zero s.
Proof.
  destruct x as [s|[|]| |[|] m e]; try discriminate. intros _. now exists s.
Qed.

Lemma SFcompare_finite_Eq (s s' : bool) (m m' : positive) (e e' : Z) :
  SFcompare (S754_finite s m e) (S754_finite s' m' e') = Some Eq ->
  S754_finite s m e = S754_finite s' m' e'.
Proof.
  cbn [SFcompare].
  change (PosDef.Pos.compare_cont Eq m m') with (Pos.compare m m').
  destruct s, s'; try discriminate;
    destruct (e ?= e') eqn:He; try discriminate;
    destruct (m ?= m')%positive eqn:Hm; try discriminate;
    intros _; apply Z.compare_eq in He; apply Pos.compare_eq in Hm;
    now subst.
Qed.

Lemma SFcompare_one_Eq (x : float64) :
  SFcompare x f64_one = Some Eq -> x = f64_one.
Proof.
  destruct x as [s|[|]| |s m e]; try discriminate.
  unfold f64_one. apply SFcompare_finite_Eq.
Qed.

(** A rate inside [0.0, 1.0] is stored as it is, but for -0, which is
    stored as +0; no draw tells the two apart. *)
Lemma clamp_inside (rate : float64) :
  SFleb f64_zero rate = true -> SFleb rate f64_one = true ->
  let stored := math_Max f64_zero (math_Min rate f64_one) in
  SFeqb stored rate = true
  /\ (rate <> S754_zero true -> stored = rate)
  /\ (forall d, SFltb d stored = SFltb d rate).
Proof.
  intros H0 H1 stored. subst stored.
  assert (Hnan : IsNaN rate = false) by (now destruct rate).
  rewrite (clamp_spec rate Hnan).
  unfold SFleb in H0, H1.
  destruct (SFltb rate f64_one) eqn:L1.
  - destruct (SFltb f64_zero rate) eqn:L0.
    + split; [|now split]. unfold SFeqb. now rewrite SFcompare_refl.
    + unfold SFltb in L0.
      destruct (SFcompare f64_zero rate) as [[| |]|] eqn:C0; try discriminate.
      apply SFcompare_zero_Eq in C0 as [s ->].
      split; [reflexivity|]. split.
      * destruct s; [congruence|reflexivity].
      * intros d. unfold SFltb. now destruct d as [[|]|[|]| |[|] m e], s.
  - unfold SFltb in L1.
    destruct (SFcompare rate f64_one) as [[| |]|] eqn:C1; try discriminate.
    apply SFcompare_one_Eq in C1. subst rate. repeat split.
Qed.

(** C8: [NewProbabilisticSampler] stores the rate clamped into
    [0.0, 1.0] for every rate that is not NaN: 1 unless rate < 1, then 0
    unless 0 < rate, and otherwise the rate itself, so that a rate inside
    [0.0, 1.0] is kept (-0 as +0). Each [IsSampled] call takes one draw
    and samples exactly when draw < stored rate, which for a rate inside
    [0.0, 1.0] is draw < rate. With the draw in [0, 1): a rate <= 0 never
    samples and a rate >= 1 always samples. A NaN rate slips through the
    clamp: it is stored as NaN, which is not in [0.0, 1.0], and never
    samples. *)
Theorem ProbabilisticSampler_boundaries (rate : float64) (w : World)
    (Hdraw : in_unit_interval (rand_Float64 w).1) :
  let s := NewProbabilisticSampler rate in
  let stored := ProbabilisticSampler.samplingRate s in
  let draw := (rand_Float64 w).1 in
  (IsNaN rate = false ->
     stored = (if SFltb rate f64_one
               then (if SFltb f64_zero rate then rate else f64_zero)
               else f64_one)
     /\ SFleb f64_zero stored = true /\ SFleb stored f64_one = true)
  /\ (SFleb f64_zero rate = true -> SFleb rate f64_one = true ->
      SFeqb stored rate = true
      /\ (rate <> S754_zero true -> stored = rate)
      /\ (ProbabilisticSampler.IsSampled s w).1 = SFltb draw rate)
  /\ (ProbabilisticSampler.IsSampled s w).1 = SFltb draw stored
  /\ float_pos (ProbabilisticSampler.IsSampled s w).2 = Datatypes.S (float_pos w)
  /\ rand_pos (ProbabilisticSampler.IsSampled s w).2 = rand_pos w
  /\ (SFleb rate f64_zero = true ->
        (ProbabilisticSampler.IsSampled s w).1 = false)
  /\ (SFleb f64_one rate = true ->
        (ProbabilisticSampler.IsSampled s w).1 = true)
  /\ (IsNaN rate = true ->
        stored = S754_nan
        /\ SFleb f64_zero stored = false /\ SFleb stored f64_one = false
        /\ (ProbabilisticSampler.IsSampled s w).1 = false).
Proof.
  intros s stored draw. destruct Hdraw as [Hlo Hhi]. fold draw in Hlo, Hhi.
  assert (Hcall : (ProbabilisticSampler.IsSampled s w).1 = SFltb draw stored)
    by reflexivity.
  assert (Hstored : stored = math_Max f64_zero (math_Min rate f64_one))
    by reflexivity.
  split; [|split; [|split; [exact Hcall|split; [reflexivity|split;
           [reflexivity|]]]]].
  - intros Hnan. rewrite Hstored, (clamp_spec rate Hnan).
    split; [reflexivity|].
    destruct (SFltb rate f64_one) eqn:H1; [|split; reflexivity].
    destruct (SFltb f64_zero rate) eqn:H0; [|split; reflexivity].
    split; now apply SFltb_SFleb.
  - intros H0 H1.
    destruct (clamp_inside rate H0 H1) as (He & Hs & Hd).
    rewrite Hcall, Hstored. repeat split; [exact He|exact Hs|apply Hd].
  - rewrite Hcall. split; [|split].
    + intros Hle.
      assert (E : stored = f64_zero).
      { rewrite Hstored.
        destruct rate as [[|]|[|]| |[|] m e]; try discriminate; reflexivity. }
      rewrite E. now apply SFleb_not_SFltb.
    + intros Hge.
      assert (Hnan : IsNaN rate = false) by (now destruct rate).
      rewrite Hstored, (clamp_spec rate Hnan).
      now rewrite (SFleb_not_SFltb _ _ Hge).
    + intros Hnan. destruct rate; try discriminate.
      split; [exact Hstored|]. rewrite Hstored.
      repeat split. unfold SFltb. now destruct draw.
Qed.

Lemma ProbabilisticSampler_boundaries_witness :
  in_unit_interval (rand_Float64 sample_world).1
  /\ ProbabilisticSampler.samplingRate (NewProbabilisticSampler S754_nan)
     = S754_nan
  /\ SFleb f64_zero
       (ProbabilisticSampler.samplingRate (NewProbabilisticSampler S754_nan))
     = false.
Proof.
  assert (Hd : in_unit_interval (rand_Float64 sample_world).1)
    by (split; reflexivity).
  split; [exact Hd|].
  pose proof (ProbabilisticSampler_boundaries S754_nan sample_world Hd) as H.
  cbv zeta in H.
  destruct H as (_ & _ & _ & _ & _ & _ & _ & H).
  destruct (H eq_refl) as (H1 & H2 & _). split; [exact H1|exact H2].
Defined.

(** The stored rate of a NaN sampler is not in [0.0, 1.0]. *)
Lemma NaN_rate_not_clamped :
  ~ (SFleb f64_zero
       (ProbabilisticSampler.samplingRate (NewProbabilisticSampler S754_nan))
     = true
     /\ SFleb
          (ProbabilisticSampler.samplingRate (NewProbabilisticSampler S754_nan))
          f64_one
        = true).
Proof. intros [H _]. discriminate H. Qed.

(** ** The theorems at sample values *)

Lemma IsSpanContextDebug_decoding_witness :
  wf deep_context
  /\ (GetTypeMarker (Some deep_context) = 0 ->
      IsSpanContextDebug (Some deep_context)
      = Z.testbit (getSpecialFlag deep_context) 0).
Proof.
  split; [exact wf_deep_context|].
  apply (IsSpanContextDebug_decoding deep_context wf_deep_context).
Defined.

Lemma IsSpanContextSampled_iff_witness :
  wf_iface (Some sample_root)
  /\ (IsSpanContextDebug (Some sample_root) = true ->
      IsSpanContextSampled (Some sample_root) = true).
Proof.
  split; [exact wf_sample_root|].
  apply (IsSpanContextSampled_iff (Some sample_root) wf_sample_root).
Defined.

Lemma SpanID_never_all_zero_witness :
  Forall (eq 0) (rand_Read (zeros 5) zero_world).1.1
  /\ (getRandomBytes (zeros 5) zero_world).1 = [0; 0; 0; 0; 1].
Proof.
  assert (H : Forall (eq 0) (rand_Read (zeros 5) zero_world).1.1)
    by (vm_compute; repeat constructor).
  split; [exact H|].
  apply (SpanID_never_all_zero sample_generator [] sample_root zero_world).
  exact H.
Defined.

(** * Further properties of the package *)

(** ** The flag decoder, continued *)

(** A context is at most one of debug, stress-test and shadow. *)
Theorem request_kinds_exclusive (sc : spanContext.t) (Hwf : wf sc) :
  (IsSpanContextDebug (Some sc) && IsSpanContextFromStressTest (Some sc) = false)
  /\ (IsSpanContextDebug (Some sc) && IsSpanContextShadow (Some sc) = false)
  /\ (IsSpanContextFromStressTest (Some sc) && IsSpanContextShadow (Some sc)
      = false).
Proof.
  pose proof (getSpecialFlag_byte sc Hwf) as Hf.
  unfold IsSpanContextDebug, IsSpanContextFromStressTest, IsSpanContextShadow,
    isOldFormat, spanContext.isOldFormat.
  fold (getSpecialFlag sc). revert Hf. generalize (getSpecialFlag sc).
  by_byte_cases.
Qed.

Lemma request_kinds_exclusive_witness :
  wf sample_root
  /\ (IsSpanContextDebug (Some sample_root)
      && IsSpanContextFromStressTest (Some sample_root) = false).
Proof.
  split; [exact wf_sample_root|].
  apply (request_kinds_exclusive sample_root wf_sample_root).
Defined.

(** [GetRequestType] against the predicates: it names stress-test and
    shadow exactly when the predicate holds; "debug" implies
    [IsSpanContextDebug], but a legacy debug context is named
    "old_format"; nil is "old_format"; markers 5-7 are "unknown". *)
Theorem GetRequestType_predicates (sc : spanContext.t) (Hwf : wf sc) :
  (GetRequestType (Some sc) = ReqTypeStressTest
   <-> IsSpanContextFromStressTest (Some sc) = true)
  /\ (GetRequestType (Some sc) = ReqTypeShadow
      <-> IsSpanContextShadow (Some sc) = true)
  /\ (GetRequestType (Some sc) = ReqTypeDebug
      -> IsSpanContextDebug (Some sc) = true)
  /\ (IsSpanContextDebug (Some sc) = true ->
      GetRequestType (Some sc) = ReqTypeDebug
      \/ (GetRequestType (Some sc) = ReqTypeOldFormat
          /\ Z.testbit (getSpecialFlag sc) 0 = true))
  /\ (GetRequestType (Some sc) = ReqTypeUnknown
      <-> 5 <= GetTypeMarker (Some sc) <= 7)
  /\ GetRequestType None = ReqTypeOldFormat.
Proof.
  pose proof (getSpecialFlag_byte sc Hwf) as Hf.
  unfold GetRequestType, GetTypeMarker, IsSpanContextDebug,
    IsSpanContextFromStressTest, IsSpanContextShadow,
    isOldFormat, spanContext.isOldFormat.
  fold (getSpecialFlag sc). revert Hf. generalize (getSpecialFlag sc).
  by_byte_cases.
Qed.

Lemma GetRequestType_predicates_witness :
  wf deep_context
  /\ (GetRequestType (Some deep_context) = ReqTypeStressTest
      <-> IsSpanContextFromStressTest (Some deep_context) = true).
Proof.
  split; [exact wf_deep_context|].
  apply (GetRequestType_predicates deep_context wf_deep_context).
Defined.

(** ** The generator, continued *)

Lemma root_id (scg : cachedSpanContextGenerator.t)
    (options : list SpanContextOption) (w : World) :
  let sco := applyOptions options in
  let fl := setSingleFlags sco (setTypeMarker sco 0) scg w in
  spanContext.id (NewSpanContext scg options w).1
  = (newSpanContextID scg (zeros totalIDSize) fl.1 fl.2).1
  /\ spanContext.childSequenceID (NewSpanContext scg options w).1 = 0.
Proof.
  intros sco fl. unfold NewSpanContext. fold sco. subst fl.
  destruct (setSingleFlags sco (setTypeMarker sco 0) scg w) as [tf w1].
  cbn [fst snd].
  destruct (newSpanContextID scg (zeros totalIDSize) tf w1) as [scID w2].
  split; reflexivity.
Qed.

(** The request kind of a root context, from the resolved options:
    debug first, then stress-test, then shadow. *)
Theorem root_request_kind (scg : cachedSpanContextGenerator.t)
    (options : list SpanContextOption) (w : World) :
  let sco := applyOptions options in
  let root := Some (NewSpanContext scg options w).1 in
  let debug := SpanContextOptions.IsDebug sco in
  let stress := SpanContextOptions.IsFromStressTest sco in
  let shadow := SpanContextOptions.IsShadow sco in
  IsSpanContextDebug root = debug
  /\ IsSpanContextFromStressTest root = negb debug && stress
  /\ IsSpanContextShadow root = negb debug && negb stress && shadow
  /\ GetTypeMarker root
     = (if debug then 0 else if stress then 3 else if shadow then 4 else 0)
  /\ GetRequestType root
     = (if debug then ReqTypeOldFormat
        else if stress then ReqTypeStressTest
        else if shadow then ReqTypeShadow else ReqTypeOldFormat).
Proof.
  intros sco root debug stress shadow.
  pose proof (root_flag scg options w) as Hflag. cbv zeta in Hflag.
  fold sco in Hflag.
  unfold GetRequestType, GetTypeMarker, IsSpanContextDebug,
    IsSpanContextFromStressTest, IsSpanContextShadow, isOldFormat,
    spanContext.isOldFormat, root.
  fold (getSpecialFlag (NewSpanContext scg options w).1).
  rewrite Hflag. unfold setSingleFlags, setTypeMarker.
  fold debug stress shadow.
  destruct debug, stress, shadow;
    (destruct (SpanContextOptions.IsSampled sco) as [[|]|];
     [| |destruct (Sampler_IsSampled _ w) as [[|] w1]]);
    destruct (SpanContextOptions.IsCritical sco); now vm_compute.
Qed.

(** The sampling and critical decisions of a root context: an explicit
    [IsSampled] option decides alone, otherwise the generator's sampler is
    asked; a debug context is reported sampled in any case; the critical
    bit is the [IsCritical] option. *)
Theorem root_sampled_and_critical (scg : cachedSpanContextGenerator.t)
    (options : list SpanContextOption) (w : World) :
  let sco := applyOptions options in
  let root := (NewSpanContext scg options w).1 in
  let decision :=
    match SpanContextOptions.IsSampled sco with
    | Some b => b
    | None => (Sampler_IsSampled (cachedSpanContextGenerator.sampler scg) w).1
    end in
  Z.testbit (getSpecialFlag root) 1 = decision
  /\ IsSpanContextSampled (Some root)
     = decision || SpanContextOptions.IsDebug sco
  /\ IsSpanContextCritical (Some root) = SpanContextOptions.IsCritical sco.
Proof.
  intros sco root decision.
  pose proof (root_flag scg options w) as Hflag. cbv zeta in Hflag.
  fold sco root in Hflag.
  unfold IsSpanContextSampled, IsSpanContextCritical, IsSpanContextDebug,
    isOldFormat, spanContext.isOldFormat.
  fold (getSpecialFlag root).
  rewrite Hflag. subst decision. unfold setSingleFlags, setTypeMarker.
  destruct (SpanContextOptions.IsDebug sco),
    (SpanContextOptions.IsFromStressTest sco),
    (SpanContextOptions.IsShadow sco);
    (destruct (SpanContextOptions.IsSampled sco) as [[|]|];
     [| |destruct (Sampler_IsSampled _ w) as [[|] w1]]);
    destruct (SpanContextOptions.IsCritical sco); now vm_compute.
Qed.

(** With an explicit sampling option the sampler is never consulted: the
    result is the same whatever sampler the generator holds. *)
Theorem explicit_sampling_ignores_sampler
    (scg scg' : cachedSpanContextGenerator.t)
    (options : list SpanContextOption) (w : World) (b : bool)
    (Hopt : SpanContextOptions.IsSampled (applyOptions options) = Some b)
    (Hhash : cachedSpanContextGenerator.instanceIDHash scg
             = cachedSpanContextGenerator.instanceIDHash scg') :
  NewSpanContext scg options w = NewSpanContext scg' options w.
Proof.
  unfold NewSpanContext, setSingleFlags, newSpanContextID.
  now rewrite Hopt, Hhash.
Qed.

Lemma explicit_sampling_ignores_sampler_witness :
  NewSpanContext sample_generator [IsSampled (Some false)] sample_world
  = NewSpanContext
      {| cachedSpanContextGenerator.serviceInstanceID := "svc";
         cachedSpanContextGenerator.instanceIDHash := [222; 173; 190; 239];
         cachedSpanContextGenerator.sampler :=
           {| Sampler_IsSampled := fun _ => (true, zero_world) |} |}
      [IsSampled (Some false)] sample_world.
Proof.
  apply (explicit_sampling_ignores_sampler _ _ _ _ false); reflexivity.
Defined.

Lemma be48 (t : Z) :
  big_endian [uint8 (Z.shiftr t 40); uint8 (Z.shiftr t 32);
              uint8 (Z.shiftr t 24); uint8 (Z.shiftr t 16);
              uint8 (Z.shiftr t 8); uint8 t]
  = t mod 2 ^ 48.
Proof.
  unfold big_endian, uint8. cbn [foldl].
  rewrite !Z.shiftr_div_pow2 by lia.
  change (2 ^ 40) with 1099511627776. change (2 ^ 32) with 4294967296.
  change (2 ^ 24) with 16777216. change (2 ^ 16) with 65536.
  change (2 ^ 8) with 256. change (2 ^ 48) with 281474976710656.
  Z.div_mod_to_equations; lia.
Qed.

Lemma uint8_byte (z : Z) : is_byte (uint8 z).
Proof. unfold is_byte, uint8. apply Z.mod_pos_bound. lia. Qed.

Lemma zeros_bytes (n : nat) : Forall is_byte (zeros n).
Proof. apply Forall_replicate. unfold is_byte. lia. Qed.

Lemma setSingleFlags_byte (sco : SpanContextOptions.t)
    (scg : cachedSpanContextGenerator.t) (w : World) :
  is_byte (setSingleFlags sco (setTypeMarker sco 0) scg w).1.
Proof.
  unfold setSingleFlags, setTypeMarker.
  destruct (SpanContextOptions.IsDebug sco),
    (SpanContextOptions.IsFromStressTest sco),
    (SpanContextOptions.IsShadow sco);
    (destruct (SpanContextOptions.IsSampled sco) as [[|]|];
     [| |destruct (Sampler_IsSampled _ w) as [[|] w1]]);
    destruct (SpanContextOptions.IsCritical sco); now vm_compute.
Qed.

(** The 32 bytes [newSpanContextID] writes for a 4-byte fingerprint. *)
Lemma newSpanContextID_layout (scg : cachedSpanContextGenerator.t)
    (flag : Z) (w : World) :
  length (cachedSpanContextGenerator.instanceIDHash scg) = 4%nat ->
  let t := Z.quot (clock w (clock_pos w)) 1000 in
  exists rnd tail : list Z,
    (newSpanContextID scg (zeros totalIDSize) flag w).1
    = cachedSpanContextGenerator.instanceIDHash scg
        ++ [uint8 (Z.shiftr t 40); uint8 (Z.shiftr t 32);
            uint8 (Z.shiftr t 24); uint8 (Z.shiftr t 16);
            uint8 (Z.shiftr t 8); uint8 t]
        ++ rnd ++ [flag] ++ [0; 0; 0] ++ tail ++ zeros 8
    /\ length rnd = 5%nat /\ length tail = 5%nat
    /\ Forall is_byte rnd /\ Forall is_byte tail.
Proof.
  intros Hhash t. unfold newSpanContextID.
  destruct (cachedSpanContextGenerator.instanceIDHash scg) as [|h0 l]
    eqn:Eh; [discriminate|].
  explode l Hhash.
  cbn [time_Now_UnixNano list_insert insert]. fold t.
  set (w0 := Build_World _ _ _ _ _ _).
  rewrite (getRandomBytes_ext _ (zeros 5) w0) by (simpl; lia).
  pose proof (getRandomBytes_length (zeros 5) w0) as Htl.
  pose proof (getRandomBytes_bytes (zeros 5) w0 (zeros_bytes 5)) as Hb.
  destruct (getRandomBytes (zeros 5) w0) as [rnd w2]. simpl in Htl, Hb.
  exists rnd.
  assert (Hrnd : length rnd = 5%nat) by exact Htl.
  explode rnd Htl.
  cbn [take drop firstn skipn app traceIDSize Nat.sub list_insert insert].
  rewrite newSpanID_spec by (simpl; lia).
  pose proof (getRandomBytes_length (zeros 5) w2) as Htl2.
  pose proof (getRandomBytes_bytes (zeros 5) w2 (zeros_bytes 5)) as Hb2.
  destruct (getRandomBytes (zeros 5) w2) as [tail w3]. simpl in Htl2, Hb2.
  exists tail.
  assert (Htail : length tail = 5%nat) by exact Htl2.
  explode tail Htl2.
  repeat split; assumption || reflexivity.
Qed.

(** The layout of a root context: the generator's 4-byte fingerprint, the
    low 48 bits of the microsecond clock in big-endian order, level 0 and
    an all-zero ParentID; the context is well-formed. The clock is read
    after the sampling decision. *)
Theorem root_layout (scg : cachedSpanContextGenerator.t)
    (options : list SpanContextOption) (w : World)
    (Hgen : wf_generator scg) :
  let sco := applyOptions options in
  let w1 := (setSingleFlags sco (setTypeMarker sco 0) scg w).2 in
  let root := (NewSpanContext scg options w).1 in
  take 4 (spanContext.TraceID root)
  = cachedSpanContextGenerator.instanceIDHash scg
  /\ big_endian (take 6 (drop 4 (spanContext.TraceID root)))
     = Z.quot (clock w1 (clock_pos w1)) 1000 mod 2 ^ 48
  /\ spanContext.level root = 0
  /\ spanContext.ParentID root = zeros 8
  /\ wf root.
Proof.
  intros sco w1 root. destruct Hgen as [Hlen Hbytes].
  destruct (root_id scg options w) as [Hid Hcnt].
  cbv zeta in Hid. fold sco w1 root in Hid. fold root in Hcnt.
  pose proof (setSingleFlags_byte sco scg w) as Hflag.
  destruct (newSpanContextID_layout scg
              (setSingleFlags sco (setTypeMarker sco 0) scg w).1 w1 Hlen)
    as (rnd & tail & Hlay & Hrnd & Htail & Hbr & Hbt).
  cbv zeta in Hlay. rewrite <- Hid in Hlay. clear Hid.
  set (fl := (setSingleFlags sco (setTypeMarker sco 0) scg w).1) in *.
  set (t := Z.quot (clock w1 (clock_pos w1)) 1000) in *.
  unfold spanContext.TraceID, spanContext.ParentID, spanContext.level, wf.
  rewrite Hlay, Hcnt, <- (be48 t).
  destruct (cachedSpanContextGenerator.instanceIDHash scg) as [|h0 l];
    [discriminate|].
  explode l Hlen. explode rnd Hrnd. explode tail Htail.
  repeat split; try reflexivity; try lia.
  repeat (apply Forall_cons in Hbytes as [? Hbytes]).
  repeat (apply Forall_cons in Hbr as [? Hbr]).
  repeat (apply Forall_cons in Hbt as [? Hbt]).
  repeat (constructor;
          [first [assumption | apply uint8_byte | unfold is_byte; lia]|]).
  constructor.
Qed.

Lemma wf_sample_generator : wf_generator sample_generator.
Proof.
  split; [reflexivity|]. simpl.
  repeat (constructor; [unfold is_byte; lia|]). constructor.
Qed.

Lemma root_layout_witness :
  wf_generator sample_generator
  /\ spanContext.ParentID (NewSpanContext sample_generator [] sample_world).1
     = zeros 8.
Proof.
  split; [exact wf_sample_generator|].
  apply (root_layout sample_generator [] sample_world wf_sample_generator).
Defined.

(** ** Random tails, continued *)

Lemma scan_prefix_started (l : list Z) : scan_prefix l false = false.
Proof.
  induction l as [|x l IH]; [reflexivity|].
  simpl. now destruct (x =? 0).
Qed.

Lemma getRandomBytes_world (bs : list Z) (w : World) :
  (0 < length bs)%nat ->
  (getRandomBytes bs w).2 = (rand_Read bs w).2.
Proof.
  intros Hpos. unfold getRandomBytes.
  destruct (Nat.eqb_spec (length bs) 0) as [E|_]; [lia|].
  destruct (rand_Read bs w) as [[r n] w1].
  destruct (at_ r (n - 1) =? 0); [|reflexivity].
  now destruct (scan_prefix _ _).
Qed.

(** What [getRandomBytes] returns, in closed form. The loop stops at the
    first zero byte, so the last byte is forced to 1 exactly when the
    draw's last byte is 0 and its first byte is 0 too (or the slice has
    one byte), whatever lies between; otherwise the draw is returned
    as it is. The call consumes as many random bytes as the slice is
    long, and an empty slice consumes nothing. *)
Theorem getRandomBytes_closed_form (bs : list Z) (w : World)
    (Hpos : (0 < length bs)%nat) :
  let n := length bs in
  let raw := raw_draw n w in
  (getRandomBytes bs w).1
  = (if (at_ raw (n - 1) =? 0) && ((n =? 1)%nat || (at_ raw 0 =? 0))
     then <[(n - 1)%nat := 1]> raw else raw)
  /\ rand_pos (getRandomBytes bs w).2 = (rand_pos w + n)%nat
  /\ float_pos (getRandomBytes bs w).2 = float_pos w
  /\ clock_pos (getRandomBytes bs w).2 = clock_pos w
  /\ getRandomBytes [] w = ([], w).
Proof.
  intros n raw.
  split; [|rewrite (getRandomBytes_world bs w Hpos); repeat split].
  unfold getRandomBytes.
  destruct (Nat.eqb_spec (length bs) 0) as [E|_]; [lia|].
  assert (Hraw : rand_Read bs w = (raw, n, (rand_Read bs w).2)).
  { unfold raw, raw_draw, rand_Read, zeros. now rewrite length_replicate. }
  pose proof (rand_Read_length bs w) as Hlen.
  rewrite Hraw in Hlen |- *. cbn [fst snd] in Hlen |- *. fold n in Hlen.
  destruct (at_ raw (n - 1) =? 0); [|reflexivity]. cbn [andb].
  assert (Hscan : scan_prefix (take (n - 1) raw) true
                  = (n =? 1)%nat || (at_ raw 0 =? 0)).
  { destruct raw as [|x rest]; [simpl in Hlen; unfold n in *; lia|].
    simpl in Hlen.
    destruct (Nat.eqb_spec n 1) as [->|Hn]; [reflexivity|].
    replace (n - 1)%nat with (Datatypes.S (n - 2)) by lia.
    change (at_ (x :: rest) 0) with x.
    cbn [take firstn scan_prefix orb].
    destruct (x =? 0); [reflexivity|]. apply scan_prefix_started. }
  rewrite Hscan. now destruct ((n =? 1)%nat || (at_ raw 0 =? 0)).
Qed.

Lemma getRandomBytes_closed_form_witness :
  (getRandomBytes (zeros 5) zero_world).1 = [0; 0; 0; 0; 1].
Proof.
  refine (proj1 (getRandomBytes_closed_form (zeros 5) zero_world _)).
  simpl. lia.
Defined.

(** ** Derivation, continued *)

Lemma child_flag (sc : spanContext.t) (w : World) :
  length (spanContext.id sc) = totalIDSize ->
  getSpecialFlag (spanContext.NewChildSpanContext sc w).1.1 = getSpecialFlag sc.
Proof.
  intros Hlen. rewrite (NewChildSpanContext_spec sc w Hlen). cbn [fst snd].
  destruct sc as [cnt l]. simpl in Hlen. explode l Hlen. reflexivity.
Qed.

Lemma child_wf (sc : spanContext.t) (w : World) :
  wf sc -> wf (spanContext.NewChildSpanContext sc w).1.1.
Proof.
  intros (Hlen & Hb & Hc).
  rewrite (NewChildSpanContext_spec sc w Hlen). cbn [fst snd].
  pose proof (getRandomBytes_length (zeros 5) w) as Htl.
  pose proof (getRandomBytes_bytes (zeros 5) w (zeros_bytes 5)) as Hbt.
  destruct (getRandomBytes (zeros 5) w) as [tail w1]. simpl in Htl, Hbt.
  destruct sc as [cnt l]. simpl in Hlen, Hb, Hc.
  explode tail Htl. explode l Hlen.
  split; [reflexivity|]. split; [|simpl; lia].
  repeat (apply Forall_cons in Hb as [? Hb]).
  repeat (apply Forall_cons in Hbt as [? Hbt]).
  cbn.
  repeat (constructor;
          [first [assumption | apply uint8_byte
                 | destruct (0 <? cnt);
                   [apply uint8_byte | unfold is_byte; lia]]|]).
  constructor.
Qed.

(** A child answers every flag query as its parent does, is well-formed
    when the parent is, and deriving it changes nothing of the parent but
    the counter. *)
Theorem child_inherits_flags (parent : spanContext.t) (w : World)
    (Hwf : wf parent) :
  let child := (spanContext.NewChildSpanContext parent w).1.1 in
  let parent' := (spanContext.NewChildSpanContext parent w).1.2 in
  GetTypeMarker (Some child) = GetTypeMarker (Some parent)
  /\ GetRequestType (Some child) = GetRequestType (Some parent)
  /\ IsSpanContextDebug (Some child) = IsSpanContextDebug (Some parent)
  /\ IsSpanContextSampled (Some child) = IsSpanContextSampled (Some parent)
  /\ IsSpanContextFromStressTest (Some child)
     = IsSpanContextFromStressTest (Some parent)
  /\ IsSpanContextShadow (Some child) = IsSpanContextShadow (Some parent)
  /\ IsSpanContextCritical (Some child) = IsSpanContextCritical (Some parent)
  /\ wf child
  /\ spanContext.id parent' = spanContext.id parent.
Proof.
  intros child parent'.
  pose proof (child_flag parent w (wf_length parent Hwf)) as Hflag.
  fold child in Hflag.
  unfold GetRequestType, GetTypeMarker, IsSpanContextSampled,
    IsSpanContextDebug, IsSpanContextFromStressTest, IsSpanContextShadow,
    IsSpanContextCritical, isOldFormat, spanContext.isOldFormat.
  fold (getSpecialFlag child) (getSpecialFlag parent). rewrite Hflag.
  repeat split; try reflexivity.
  - exact (proj1 (child_wf parent w Hwf)).
  - exact (proj1 (proj2 (child_wf parent w Hwf))).
  - pose proof (child_wf parent w Hwf) as (_ & _ & H). fold child in H.
    cbn in H. lia.
  - pose proof (child_wf parent w Hwf) as (_ & _ & H). fold child in H.
    cbn in H. lia.
  - subst parent'.
    now rewrite (NewChildSpanContext_spec parent w (wf_length parent Hwf)).
Qed.

Lemma child_inherits_flags_witness :
  wf sample_root
  /\ IsSpanContextSampled
       (Some (spanContext.NewChildSpanContext sample_root sample_world).1.1)
     = IsSpanContextSampled (Some sample_root).
Proof.
  split; [exact wf_sample_root|].
  apply (child_inherits_flags sample_root sample_world wf_sample_root).
Defined.

(** ** Text form, continued *)

Lemma hexdigit_in_table (n : Z) : hexdigit n ∈ hextable.
Proof.
  unfold hexdigit. generalize (Z.to_nat n). intros m.
  do 16 (destruct m as [|m];
         [vm_compute;
          repeat first [apply list_elem_of_here | apply list_elem_of_further]|]).
  vm_compute. apply list_elem_of_here.
Qed.

Lemma hex_digits_in_table (src : list Z) :
  Forall (fun c => c ∈ hextable) (hex_digits src).
Proof.
  induction src as [|v src IH]; [constructor|].
  rewrite hex_digits_cons.
  repeat (constructor; [apply hexdigit_in_table|]). exact IH.
Qed.

Lemma hex_Encode_full (dst : list ascii) (src : list Z) :
  length dst = (2 * length src)%nat -> hex_Encode dst src = hex_digits src.
Proof.
  intros Hlen. unfold hex_Encode.
  rewrite hex_Encode_from_spec by lia.
  rewrite drop_ge by lia. apply app_nil_r.
Qed.

Lemma length_string_of_list_ascii (l : list ascii) :
  String.length (string_of_list_ascii l) = length l.
Proof.
  induction l as [|c l IH]; [reflexivity|].
  cbn [string_of_list_ascii String.length length]. now rewrite IH.
Qed.

Lemma string_of_list_ascii_app (l1 l2 : list ascii) :
  string_of_list_ascii (l1 ++ l2)
  = String.append (string_of_list_ascii l1) (string_of_list_ascii l2).
Proof.
  induction l1 as [|c l1 IH]; [reflexivity|].
  cbn [app string_of_list_ascii String.append]. now rewrite IH.
Qed.

Lemma joined_length (a b c : list ascii) (x : ascii) :
  length (a ++ x :: b ++ x :: c)
  = (length a + 1 + length b + 1 + length c)%nat.
Proof. rewrite length_app. simpl. rewrite length_app. simpl. lia. Qed.

Lemma segment_lengths (sc : spanContext.t) :
  length (spanContext.id sc) = totalIDSize ->
  length (spanContext.TraceID sc) = 16%nat
  /\ length (spanContext.SpanID sc) = 8%nat
  /\ length (spanContext.ParentID sc) = 8%nat.
Proof.
  intros Hlen.
  unfold spanContext.TraceID, spanContext.SpanID, spanContext.ParentID,
    totalIDSize, traceIDSize, spanIDSize in *.
  rewrite !length_take, !length_drop, Hlen. repeat split.
Qed.

Lemma parse_String (sc : spanContext.t) :
  length (spanContext.id sc) = totalIDSize ->
  Forall is_byte (spanContext.id sc) ->
  NewSpanContextFromString (spanContext.String sc)
  = Ok {| spanContext.childSequenceID := 0;
          spanContext.id := spanContext.id sc |}.
Proof.
  intros Hlen Hb.
  destruct (segment_lengths sc Hlen) as (H1 & H2 & H3).
  rewrite <- (string_of_list_ascii_of_string (spanContext.String sc)).
  rewrite (String_spec sc Hlen), <- (id_segments sc) at 1.
  apply parse_joined; try assumption.
  - now apply Forall_take.
  - now apply Forall_take, Forall_drop.
  - now apply Forall_drop.
Qed.

(** The text form is the three segment strings joined by colons: 66
    characters, 32 + 16 + 16 lowercase hex digits around two colons. *)
Theorem String_format (sc : spanContext.t) (Hwf : wf sc) :
  spanContext.String sc
  = (spanContext.TraceIDString sc ++ ":" ++ spanContext.SpanIDString sc
       ++ ":" ++ spanContext.ParentIDString sc)%string
  /\ String.length (spanContext.String sc) = 66%nat
  /\ String.length (spanContext.TraceIDString sc) = 32%nat
  /\ String.length (spanContext.SpanIDString sc) = 16%nat
  /\ String.length (spanContext.ParentIDString sc) = 16%nat
  /\ Forall (fun c => c ∈ hextable)
       (list_ascii_of_string (spanContext.TraceIDString sc)
          ++ list_ascii_of_string (spanContext.SpanIDString sc)
          ++ list_ascii_of_string (spanContext.ParentIDString sc)).
Proof.
  pose proof (wf_length sc Hwf) as Hlen.
  destruct (segment_lengths sc Hlen) as (H1 & H2 & H3).
  assert (HT : spanContext.TraceIDString sc
               = string_of_list_ascii (hex_digits (spanContext.TraceID sc))).
  { unfold spanContext.TraceIDString. rewrite hex_Encode_full; [reflexivity|].
    now rewrite length_replicate, H1. }
  assert (HS : spanContext.SpanIDString sc
               = string_of_list_ascii (hex_digits (spanContext.SpanID sc))).
  { unfold spanContext.SpanIDString. rewrite hex_Encode_full; [reflexivity|].
    now rewrite length_replicate, H2. }
  assert (HP : spanContext.ParentIDString sc
               = string_of_list_ascii (hex_digits (spanContext.ParentID sc))).
  { unfold spanContext.ParentIDString. rewrite hex_Encode_full; [reflexivity|].
    now rewrite length_replicate, H3. }
  assert (Hstr : spanContext.String sc
                 = string_of_list_ascii
                     (hex_digits (spanContext.TraceID sc)
                        ++ ":"%char :: hex_digits (spanContext.SpanID sc)
                        ++ ":"%char :: hex_digits (spanContext.ParentID sc))).
  { rewrite <- (String_spec sc Hlen).
    now rewrite string_of_list_ascii_of_string. }
  rewrite HT, HS, HP, Hstr.
  rewrite !length_string_of_list_ascii, !list_ascii_of_string_of_list_ascii.
  rewrite joined_length, !hex_digits_length, H1, H2, H3.
  repeat split.
  - rewrite string_of_list_ascii_app. cbn [string_of_list_ascii].
    rewrite string_of_list_ascii_app. reflexivity.
  - rewrite !Forall_app. repeat split; apply hex_digits_in_table.
Qed.

Lemma String_format_witness :
  wf sample_root /\ String.length (spanContext.String sample_root) = 66%nat.
Proof.
  split; [exact wf_sample_root|].
  apply (String_format sample_root wf_sample_root).
Defined.

(** Two contexts with the same text form have the same 32 bytes. *)
Theorem String_injective (sc1 sc2 : spanContext.t)
    (Hwf1 : wf sc1) (Hwf2 : wf sc2)
    (Heq : spanContext.String sc1 = spanContext.String sc2) :
  spanContext.id sc1 = spanContext.id sc2.
Proof.
  destruct Hwf1 as (Hl1 & Hb1 & _), Hwf2 as (Hl2 & Hb2 & _).
  pose proof (parse_String sc1 Hl1 Hb1) as H1.
  pose proof (parse_String sc2 Hl2 Hb2) as H2.
  rewrite Heq, H2 in H1. now injection H1.
Qed.

Lemma String_injective_witness :
  spanContext.id sample_root
  = spanContext.id {| spanContext.childSequenceID := 7;
                      spanContext.id := spanContext.id sample_root |}.
Proof.
  apply String_injective.
  - exact wf_sample_root.
  - destruct wf_sample_root as (H1 & H2 & _).
    split; [exact H1|]. split; [exact H2|]. simpl. lia.
  - reflexivity.
Defined.

(** [NewSpanContextFromBytes] accepts exactly the 32-byte inputs, keeps
    them unchanged with a fresh counter, and otherwise returns
    [errConvertToSpanContext]; it never panics. *)
Theorem NewSpanContextFromBytes_total (data : list Z) :
  (length data = totalIDSize ->
   NewSpanContextFromBytes data
   = Ok {| spanContext.childSequenceID := 0; spanContext.id := data |})
  /\ (length data <> totalIDSize ->
      NewSpanContextFromBytes data = Fail errConvertToSpanContext)
  /\ NewSpanContextFromBytes data <> Panic.
Proof.
  unfold NewSpanContextFromBytes.
  destruct (Nat.eqb_spec (length data) totalIDSize) as [E|E]; cbn [negb].
  - repeat split; try congruence; try discriminate.
    intros _. rewrite copy_full; [reflexivity|]. now rewrite E.
  - repeat split; try congruence; discriminate.
Qed.

Lemma NewSpanContextFromBytes_total_witness :
  NewSpanContextFromBytes (zeros 31) = Fail errConvertToSpanContext.
Proof.
  apply (NewSpanContextFromBytes_total (zeros 31)). discriminate.
Defined.

(** [SpanContextFromBytesToString] turns 32 bytes into text that parses
    back to the same bytes; any other input gives the empty string, which
    the parser rejects. *)
Theorem SpanContextFromBytesToString_round_trip (bytes : list Z)
    (Hb : Forall is_byte bytes) :
  (length bytes = totalIDSize ->
   NewSpanContextFromString (SpanContextFromBytesToString bytes)
   = Ok {| spanContext.childSequenceID := 0; spanContext.id := bytes |})
  /\ (length bytes <> totalIDSize ->
      SpanContextFromBytesToString bytes = ""%string
      /\ NewSpanContextFromString (SpanContextFromBytesToString bytes)
         = Fail errConvertToSpanContext).
Proof.
  unfold SpanContextFromBytesToString, NewSpanContextFromBytes.
  destruct (Nat.eqb_spec (length bytes) totalIDSize) as [E|E]; cbn [negb].
  - split; [|congruence]. intros _.
    rewrite copy_full by (now rewrite E).
    now apply (parse_String
                 {| spanContext.childSequenceID := 0; spanContext.id := bytes |}).
  - split; [congruence|]. intros _. split; reflexivity.
Qed.

Lemma SpanContextFromBytesToString_round_trip_witness :
  Forall is_byte (zeros 3)
  /\ SpanContextFromBytesToString (zeros 3) = ""%string.
Proof.
  split; [apply zeros_bytes|].
  apply (SpanContextFromBytesToString_round_trip (zeros 3) (zeros_bytes 3)).
  discriminate.
Defined.

(** ** What the text parser accepts *)

Lemma list_pair_ind {A} (P : list A -> Prop) :
  P [] -> (forall x, P [x]) -> (forall x y l, P l -> P (x :: y :: l)) ->
  forall l, P l.
Proof.
  intros H0 H1 H2 l.
  assert (H : P l /\ forall x, P (x :: l)).
  { induction l as [|y l [IH IH']]; [now split|].
    split; [apply IH'|]. intros x. now apply H2. }
  exact (proj1 H).
Qed.

Lemma colon_not_hex : ~ is_hex ":"%char.
Proof. unfold is_hex. vm_compute. congruence. Qed.

Lemma hex_no_colon (l : list ascii) : Forall is_hex l -> ":"%char ∉ l.
Proof.
  intros Hl Hin. rewrite Forall_forall in Hl.
  exact (colon_not_hex (Hl _ Hin)).
Qed.

Lemma hex_Decode_from_length (src : list ascii) :
  forall i dst r, hex_Decode_from i dst src = Ok r -> length r = length dst.
Proof.
  induction src as [| x | x y src IH] using list_pair_ind; intros i dst r.
  - now intros [= <-].
  - simpl. now destruct (15 <? reverseHexTable x).
  - cbn [hex_Decode_from].
    destruct (15 <? reverseHexTable x); [discriminate|].
    destruct (15 <? reverseHexTable y); [discriminate|].
    destruct (i <? length dst)%nat; [|discriminate].
    intros H. apply IH in H. now rewrite length_insert in H.
Qed.

(** [hex.Decode] succeeds exactly on hex text that fits the destination. *)
Lemma hex_Decode_from_Ok (src : list ascii) :
  forall i dst,
    (exists r, hex_Decode_from i dst src = Ok r)
    <-> hex_segment (length dst - i) src.
Proof.
  unfold hex_segment.
  induction src as [| x | x y src IH] using list_pair_ind; intros i dst.
  - split; [|now exists dst]. intros _. split; [constructor|].
    exists 0%nat. split; [reflexivity|lia].
  - split.
    + intros [r H]. simpl in H. now destruct (15 <? reverseHexTable x).
    + intros (_ & k & Hk & _). simpl in Hk. lia.
  - cbn [hex_Decode_from]. unfold is_hex.
    destruct (Z.ltb_spec 15 (reverseHexTable x)) as [Hx|Hx].
    { split; [now intros [r H]|]. intros (Hf & _).
      apply Forall_cons in Hf as [Hf _]. lia. }
    destruct (Z.ltb_spec 15 (reverseHexTable y)) as [Hy|Hy].
    { split; [now intros [r H]|]. intros (Hf & _).
      apply Forall_cons in Hf as [_ Hf]. apply Forall_cons in Hf as [Hf _].
      lia. }
    destruct (Nat.ltb_spec i (length dst)) as [Hi|Hi].
    + rewrite IH, length_insert. split.
      * intros (Hf & k & Hk & Hle). split; [now repeat constructor|].
        exists (Datatypes.S k). simpl. split; lia.
      * intros (Hf & k & Hk & Hle).
        apply Forall_cons in Hf as [_ Hf]. apply Forall_cons in Hf as [_ Hf].
        split; [exact Hf|]. simpl in Hk.
        exists (k - 1)%nat. split; lia.
    + split; [now intros [r H]|].
      intros (_ & k & Hk & Hle). simpl in Hk. lia.
Qed.

(** A panic of [hex.Decode] needs more text than the destination holds. *)
Lemma hex_Decode_from_Panic (src : list ascii) :
  forall i dst,
    hex_Decode_from i dst src = Panic ->
    (2 * (length dst - i) + 2 <= length src)%nat.
Proof.
  induction src as [| x | x y src IH] using list_pair_ind; intros i dst.
  - discriminate.
  - simpl. now destruct (15 <? reverseHexTable x).
  - cbn [hex_Decode_from].
    destruct (15 <? reverseHexTable x); [discriminate|].
    destruct (15 <? reverseHexTable y); [discriminate|].
    destruct (Nat.ltb_spec i (length dst)) as [Hi|Hi].
    + intros H. apply IH in H. rewrite length_insert in H. simpl. lia.
    + intros _. simpl. lia.
Qed.

(** The first and the last separator split the text. *)
Lemma strings_Index_split (data : list ascii) (c : ascii) :
  (strings_Index data c = -1 /\ (c ∉ data))
  \/ exists l1 l2, data = l1 ++ c :: l2 /\ (c ∉ l1)
                   /\ strings_Index data c = Z.of_nat (length l1).
Proof.
  destruct (decide (c ∈ data)) as [Hin|Hn].
  - right. apply list_elem_of_split_l in Hin as (l1 & l2 & -> & Hn).
    exists l1, l2. repeat split; [exact Hn|]. now apply strings_Index_first.
  - left. split; [now apply strings_Index_absent|exact Hn].
Qed.

Lemma strings_LastIndex_split (data : list ascii) (c : ascii) :
  (strings_LastIndex data c = -1 /\ (c ∉ data))
  \/ exists l1 l2, data = l1 ++ c :: l2 /\ (c ∉ l2)
                   /\ strings_LastIndex data c = Z.of_nat (length l1).
Proof.
  destruct (decide (c ∈ data)) as [Hin|Hn].
  - right. apply list_elem_of_split_r in Hin as (l1 & l2 & -> & Hn).
    exists l1, l2. repeat split; [exact Hn|]. now apply strings_LastIndex_last.
  - left. split; [now apply strings_LastIndex_absent|exact Hn].
Qed.

(** When the first separator is strictly before the last, the text is
    three segments, the outer two without a separator. *)
Lemma separators_split (data : list ascii) (c : ascii) :
  strings_Index data c < strings_LastIndex data c ->
  exists a b d, data = (a ++ c :: b) ++ c :: d /\ (c ∉ a) /\ (c ∉ d)
                /\ strings_Index data c = Z.of_nat (length a)
                /\ strings_LastIndex data c = Z.of_nat (length (a ++ c :: b)).
Proof.
  intros Hlt.
  destruct (strings_Index_split data c) as [[E Hn]|(l1 & l2 & Hd & Hn1 & E1)].
  { rewrite E, (strings_LastIndex_absent data c Hn) in Hlt. lia. }
  destruct (strings_LastIndex_split data c)
    as [[E Hn]|(m1 & m2 & Hd' & Hn2 & E2)].
  { rewrite E in Hlt. rewrite E1 in Hlt. lia. }
  rewrite E1, E2 in Hlt.
  assert (Heq : l1 ++ c :: l2 = m1 ++ c :: m2) by congruence.
  apply app_eq_inv in Heq as [(k & Hl & Hk)|(k & Hm & Hk)].
  - rewrite Hl, length_app in Hlt. lia.
  - destruct k as [|x k].
    + rewrite Hm, length_app in Hlt. simpl in Hlt. lia.
    + simpl in Hk. injection Hk as <- Hl2.
      exists l1, k, m2. rewrite <- Hm.
      repeat split; assumption || congruence.
Qed.

Lemma joined_assoc {A} (a b d : list A) (x : A) :
  (a ++ x :: b) ++ x :: d = a ++ x :: b ++ x :: d.
Proof. now rewrite <- app_assoc. Qed.

(** On three segments the parser is the three decodings in a row. *)
Lemma parse_segments (a b d : list ascii) :
  ":"%char ∉ a -> ":"%char ∉ d ->
  NewSpanContextFromString
    (string_of_list_ascii ((a ++ ":"%char :: b) ++ ":"%char :: d))
  = (h1 ← hex_Decode (zeros totalIDSize) a;
     t2 ← hex_Decode (drop traceIDSize h1) b;
     t3 ← hex_Decode (drop (traceIDSize + spanIDSize)
                        (take traceIDSize h1 ++ t2)) d;
     Ok {| spanContext.childSequenceID := 0;
           spanContext.id :=
             take (traceIDSize + spanIDSize) (take traceIDSize h1 ++ t2)
               ++ t3 |}).
Proof.
  intros Ha Hd. unfold NewSpanContextFromString.
  rewrite list_ascii_of_string_of_list_ascii.
  rewrite strings_LastIndex_last by exact Hd.
  rewrite joined_assoc, strings_Index_first by exact Ha.
  rewrite <- joined_assoc.
  match goal with
  | |- context [?n =? 0] => destruct (Z.eqb_spec n 0) as [E|_]
  end.
  { rewrite length_app in E. simpl in E. lia. }
  rewrite Z.geb_leb.
  destruct (Z.leb_spec (Z.of_nat (length (a ++ ":"%char :: b)))
              (Z.of_nat (length a))) as [E|_].
  { rewrite length_app in E. simpl in E. lia. }
  rewrite slice_first, slice_middle, slice_last. reflexivity.
Qed.

Lemma hex_Decode_Ok (dst : list Z) (src : list ascii) :
  (exists r, hex_Decode dst src = Ok r) <-> hex_segment (length dst) src.
Proof.
  unfold hex_Decode. rewrite hex_Decode_from_Ok. now rewrite Nat.sub_0_r.
Qed.

Lemma hex_Decode_length (dst r : list Z) (src : list ascii) :
  hex_Decode dst src = Ok r -> length r = length dst.
Proof. apply hex_Decode_from_length. Qed.

(** The text parser accepts exactly the texts made of three hex segments
    around two colons that spell at most 32, 16 and 8 bytes: shorter
    segments than 16, 8 and 8 bytes are accepted as well. *)
Theorem NewSpanContextFromString_accepts (s : string) :
  (exists sc, NewSpanContextFromString s = Ok sc)
  <-> exists a b d,
        list_ascii_of_string s = a ++ ":"%char :: b ++ ":"%char :: d
        /\ hex_segment 32 a /\ hex_segment 16 b /\ hex_segment 8 d.
Proof.
  split.
  - intros [sc H].
    assert (Hlt : strings_Index (list_ascii_of_string s) ":"%char
                  < strings_LastIndex (list_ascii_of_string s) ":"%char).
    { unfold NewSpanContextFromString in H.
      destruct (Z.of_nat (length (list_ascii_of_string s)) =? 0);
        [discriminate|].
      rewrite Z.geb_leb in H.
      destruct (Z.leb_spec
                  (strings_LastIndex (list_ascii_of_string s) ":"%char)
                  (strings_Index (list_ascii_of_string s) ":"%char));
        [discriminate|assumption]. }
    apply separators_split in Hlt as (a & b & d & Hs & Ha & Hd & _).
    rewrite <- (string_of_list_ascii_of_string s), Hs in H.
    rewrite (parse_segments a b d Ha Hd) in H.
    destruct (hex_Decode (zeros totalIDSize) a) as [h1| |] eqn:E1;
      try discriminate.
    cbn [mbind outcome_bind] in H.
    destruct (hex_Decode (drop traceIDSize h1) b) as [t2| |] eqn:E2;
      try discriminate.
    cbn [mbind outcome_bind] in H.
    destruct (hex_Decode _ d) as [t3| |] eqn:E3; try discriminate.
    pose proof (hex_Decode_length _ _ _ E1) as L1.
    pose proof (hex_Decode_length _ _ _ E2) as L2.
    exists a, b, d. rewrite Hs, joined_assoc. split; [reflexivity|].
    split; [|split].
    + apply (proj1 (hex_Decode_Ok (zeros totalIDSize) a)). eauto.
    + replace 16%nat with (length (drop traceIDSize h1)).
      * apply (proj1 (hex_Decode_Ok _ b)). eauto.
      * rewrite length_drop, L1. reflexivity.
    + replace 8%nat
        with (length (drop (traceIDSize + spanIDSize)
                        (take traceIDSize h1 ++ t2))).
      * apply (proj1 (hex_Decode_Ok _ d)). eauto.
      * rewrite length_drop, length_app, length_take, L2, length_drop, L1.
        reflexivity.
  - intros (a & b & d & Hs & Ha & Hb & Hd).
    rewrite <- (string_of_list_ascii_of_string s), Hs, <- joined_assoc.
    rewrite parse_segments
      by (apply hex_no_colon; [apply Ha || apply Hd]).
    destruct (proj2 (hex_Decode_Ok (zeros totalIDSize) a) Ha) as [h1 E1].
    rewrite E1. cbn [mbind outcome_bind].
    pose proof (hex_Decode_length _ _ _ E1) as L1.
    assert (Hb' : hex_segment (length (drop traceIDSize h1)) b).
    { rewrite length_drop, L1. exact Hb. }
    destruct (proj2 (hex_Decode_Ok _ b) Hb') as [t2 E2].
    rewrite E2. cbn [mbind outcome_bind].
    pose proof (hex_Decode_length _ _ _ E2) as L2.
    assert (Hd' : hex_segment
                    (length (drop (traceIDSize + spanIDSize)
                               (take traceIDSize h1 ++ t2))) d).
    { rewrite length_drop, length_app, length_take, L2, length_drop, L1.
      exact Hd. }
    destruct (proj2 (hex_Decode_Ok _ d) Hd') as [t3 E3].
    rewrite E3. cbn [mbind outcome_bind]. eauto.
Qed.

(** Without two separators the parser returns [errConvertToSpanContext]:
    on the empty text, on a text without a colon and on a text with a
    single colon. *)
Theorem NewSpanContextFromString_missing_separator (s : string) (l1 l2 : list ascii)
    (Hshape : list_ascii_of_string s = l1
              \/ list_ascii_of_string s = l1 ++ ":"%char :: l2)
    (H1 : ":"%char ∉ l1) (H2 : ":"%char ∉ l2) :
  NewSpanContextFromString s = Fail errConvertToSpanContext.
Proof.
  unfold NewSpanContextFromString.
  destruct (Z.of_nat (length (list_ascii_of_string s)) =? 0); [reflexivity|].
  destruct Hshape as [-> | ->].
  - now rewrite strings_Index_absent, strings_LastIndex_absent.
  - rewrite strings_Index_first, strings_LastIndex_last by assumption.
    now rewrite Z.geb_leb, Z.leb_refl.
Qed.

Lemma NewSpanContextFromString_missing_separator_witness :
  NewSpanContextFromString "0123456789abcdef:0123456789abcdef"
  = Fail errConvertToSpanContext.
Proof.
  apply (NewSpanContextFromString_missing_separator _
           (list_ascii_of_string "0123456789abcdef")
           (list_ascii_of_string "0123456789abcdef")).
  - right. reflexivity.
  - apply hex_no_colon. repeat (constructor; [now vm_compute|]). constructor.
  - apply hex_no_colon. repeat (constructor; [now vm_compute|]). constructor.
Defined.

(** The parser panics only on a text with two separators in which some
    segment is longer than its field can take: more than 65, 33 or 17
    characters. *)
Theorem NewSpanContextFromString_panic_needs (s : string)
    (Hpanic : NewSpanContextFromString s = Panic) :
  exists a b d,
    list_ascii_of_string s = a ++ ":"%char :: b ++ ":"%char :: d
    /\ (":"%char ∉ a) /\ (":"%char ∉ d)
    /\ (66 <= length a \/ 34 <= length b \/ 18 <= length d)%nat.
Proof.
  assert (Hlt : strings_Index (list_ascii_of_string s) ":"%char
                < strings_LastIndex (list_ascii_of_string s) ":"%char).
  { unfold NewSpanContextFromString in Hpanic.
    destruct (Z.of_nat (length (list_ascii_of_string s)) =? 0);
      [discriminate|].
    rewrite Z.geb_leb in Hpanic.
    destruct (Z.leb_spec
                (strings_LastIndex (list_ascii_of_string s) ":"%char)
                (strings_Index (list_ascii_of_string s) ":"%char));
      [discriminate|assumption]. }
  apply separators_split in Hlt as (a & b & d & Hs & Ha & Hd & _).
  rewrite <- (string_of_list_ascii_of_string s), Hs in Hpanic.
  rewrite (parse_segments a b d Ha Hd) in Hpanic.
  exists a, b, d. rewrite Hs, joined_assoc.
  split; [reflexivity|]. split; [exact Ha|]. split; [exact Hd|].
  destruct (hex_Decode (zeros totalIDSize) a) as [h1| |] eqn:E1;
    try discriminate.
  2:{ left. apply hex_Decode_from_Panic in E1. simpl in E1. lia. }
  cbn [mbind outcome_bind] in Hpanic.
  pose proof (hex_Decode_length _ _ _ E1) as L1.
  destruct (hex_Decode (drop traceIDSize h1) b) as [t2| |] eqn:E2;
    try discriminate.
  2:{ right; left. apply hex_Decode_from_Panic in E2.
      rewrite length_drop, L1 in E2. simpl in E2. lia. }
  cbn [mbind outcome_bind] in Hpanic.
  pose proof (hex_Decode_length _ _ _ E2) as L2.
  destruct (hex_Decode _ d) as [t3| |] eqn:E3; try discriminate.
  right; right. apply hex_Decode_from_Panic in E3.
  rewrite length_drop, length_app, length_take, L2, length_drop, L1 in E3.
  simpl in E3. lia.
Qed.

Lemma NewSpanContextFromString_panic_needs_witness :
  exists a b d,
    list_ascii_of_string "::000000000000000000"
    = a ++ ":"%char :: b ++ ":"%char :: d
    /\ (":"%char ∉ a) /\ (":"%char ∉ d)
    /\ (66 <= length a \/ 34 <= length b \/ 18 <= length d)%nat.
Proof.
  apply (NewSpanContextFromString_panic_needs "::000000000000000000").
  reflexivity.
Defined.

Lemma reverseHexTable_nonneg (c : ascii) : 0 <= reverseHexTable c.
Proof.
  unfold reverseHexTable.
  repeat match goal with
         | |- context [?x <=? ?y] => destruct (Z.leb_spec x y)
         end; cbn [andb]; lia.
Qed.

Lemma nibbles_byte (a b : Z) :
  0 <= a <= 15 -> 0 <= b <= 15 ->
  is_byte (Z.lor (uint8 (Z.shiftl a 4)) b).
Proof.
  intros Ha Hb.
  assert (Hc : is_byte (16 * a + b)) by (unfold is_byte; lia).
  replace a with ((16 * a + b) / 16)
    by (symmetry; apply (Z.div_unique _ 16 a b); lia).
  replace b with ((16 * a + b) mod 16) at 2
    by (symmetry; apply (Z.mod_unique _ 16 a b); lia).
  revert Hc. generalize (16 * a + b). by_byte_cases.
Qed.

Lemma hex_Decode_from_bytes (src : list ascii) :
  forall i dst r,
    Forall is_byte dst -> hex_Decode_from i dst src = Ok r -> Forall is_byte r.
Proof.
  induction src as [| x | x y src IH] using list_pair_ind; intros i dst r Hb.
  - now intros [= <-].
  - simpl. now destruct (15 <? reverseHexTable x).
  - cbn [hex_Decode_from].
    destruct (Z.ltb_spec 15 (reverseHexTable x)); [discriminate|].
    destruct (Z.ltb_spec 15 (reverseHexTable y)); [discriminate|].
    destruct (i <? length dst)%nat; [|discriminate].
    apply IH, Forall_insert; [exact Hb|].
    pose proof (reverseHexTable_nonneg x). pose proof (reverseHexTable_nonneg y).
    apply nibbles_byte; lia.
Qed.

(** Every context the text parser returns is well-formed: 32 bytes and a
    fresh counter, also when the segments were short; and its own text
    form parses back to it. *)
Theorem parsed_context_wf (s : string) (sc : spanContext.t)
    (Hok : NewSpanContextFromString s = Ok sc) :
  wf sc /\ NewSpanContextFromString (spanContext.String sc) = Ok sc.
Proof.
  assert (Hcnt : spanContext.childSequenceID sc = 0).
  { unfold NewSpanContextFromString in Hok.
    destruct (_ =? 0); [discriminate|]. destruct (_ >=? _); [discriminate|].
    repeat match type of Hok with
           | mbind _ ?m = Ok _ =>
               destruct m; cbn [mbind outcome_bind] in Hok; try discriminate
           end.
    now injection Hok as <-. }
  enough (Hwf : wf sc).
  { split; [exact Hwf|]. destruct Hwf as (Hl & Hb & _).
    rewrite (parse_String sc Hl Hb). destruct sc as [c l].
    simpl in Hcnt. now subst c. }
  assert (Hlt : strings_Index (list_ascii_of_string s) ":"%char
                < strings_LastIndex (list_ascii_of_string s) ":"%char).
  { unfold NewSpanContextFromString in Hok.
    destruct (Z.of_nat (length (list_ascii_of_string s)) =? 0);
      [discriminate|].
    rewrite Z.geb_leb in Hok.
    destruct (Z.leb_spec
                (strings_LastIndex (list_ascii_of_string s) ":"%char)
                (strings_Index (list_ascii_of_string s) ":"%char));
      [discriminate|assumption]. }
  apply separators_split in Hlt as (a & b & d & Hs & Ha & Hd & _).
  rewrite <- (string_of_list_ascii_of_string s), Hs in Hok.
  rewrite (parse_segments a b d Ha Hd) in Hok.
  destruct (hex_Decode (zeros totalIDSize) a) as [h1| |] eqn:E1;
    try discriminate.
  cbn [mbind outcome_bind] in Hok.
  destruct (hex_Decode (drop traceIDSize h1) b) as [t2| |] eqn:E2;
    try discriminate.
  cbn [mbind outcome_bind] in Hok.
  destruct (hex_Decode _ d) as [t3| |] eqn:E3; try discriminate.
  cbn [mbind outcome_bind] in Hok. injection Hok as <-.
  pose proof (hex_Decode_length _ _ _ E1) as L1.
  pose proof (hex_Decode_length _ _ _ E2) as L2.
  pose proof (hex_Decode_length _ _ _ E3) as L3.
  assert (B1 : Forall is_byte h1)
    by exact (hex_Decode_from_bytes _ _ _ _ (zeros_bytes _) E1).
  assert (B2 : Forall is_byte t2)
    by (apply (hex_Decode_from_bytes _ _ _ _ (Forall_drop _ _ _ B1) E2)).
  assert (B12 : Forall is_byte (take traceIDSize h1 ++ t2))
    by (apply Forall_app; split; [now apply Forall_take|exact B2]).
  assert (B3 : Forall is_byte t3)
    by (apply (hex_Decode_from_bytes _ _ _ _ (Forall_drop _ _ _ B12) E3)).
  split; [|split; [|simpl; lia]].
  - cbn [spanContext.id].
    rewrite length_app, length_take, L3, length_drop, length_app, length_take,
      L2, length_drop, L1.
    reflexivity.
  - cbn [spanContext.id]. apply Forall_app.
    split; [now apply Forall_take|exact B3].
Qed.

Lemma parsed_context_wf_witness :
  wf {| spanContext.childSequenceID := 0; spanContext.id := zeros 32 |}.
Proof.
  apply (parsed_context_wf "::"). reflexivity.
Defined.

(** ** Chains of derivations *)

Lemma child_segments (sc : spanContext.t) (w : World) :
  length (spanContext.id sc) = totalIDSize ->
  let child := (spanContext.NewChildSpanContext sc w).1.1 in
  spanContext.TraceID child = spanContext.TraceID sc
  /\ spanContext.ParentID child = spanContext.SpanID sc
  /\ spanContext.level child = uint8 (spanContext.level sc + 1).
Proof.
  intros Hlen child. subst child.
  rewrite (NewChildSpanContext_spec sc w Hlen). cbn [fst snd].
  pose proof (getRandomBytes_length (zeros 5) w) as Htl.
  destruct (getRandomBytes (zeros 5) w) as [tail w1]. simpl in Htl.
  destruct sc as [cnt l]. simpl in Hlen.
  explode tail Htl. explode l Hlen. repeat split.
Qed.

Lemma descend_S (n : nat) (sc : spanContext.t) (w : World) :
  descend (Datatypes.S n) sc w
  = descend n (spanContext.NewChildSpanContext sc w).1.1
              (spanContext.NewChildSpanContext sc w).2.
Proof.
  simpl. now destruct (spanContext.NewChildSpanContext sc w) as [[c p] w1].
Qed.

(** Down a chain of [n] nested derivations the TraceID and with it every
    flag stay the same, every context is well-formed, and the level byte
    is the start level plus [n] modulo 256: below 256 levels it counts the
    depth; each descendant past the first generation is a first child and
    has sequence number 0. *)
Theorem descendants_keep_trace (n : nat) :
  forall (sc : spanContext.t) (w : World) (Hwf : wf sc),
    let last := (descend n sc w).1 in
    wf last
    /\ spanContext.TraceID last = spanContext.TraceID sc
    /\ getSpecialFlag last = getSpecialFlag sc
    /\ spanContext.level last = (spanContext.level sc + Z.of_nat n) mod 256
    /\ (spanContext.level sc + Z.of_nat n < 256 ->
        spanContext.level last = spanContext.level sc + Z.of_nat n)
    /\ ((2 <= n)%nat -> sequenceOf last = 0).
Proof.
  assert (Hmain : forall n sc w, wf sc ->
            wf (descend n sc w).1
            /\ spanContext.TraceID (descend n sc w).1 = spanContext.TraceID sc
            /\ spanContext.level (descend n sc w).1
               = (spanContext.level sc + Z.of_nat n) mod 256
            /\ ((1 <= n)%nat ->
                spanContext.childSequenceID sc = 0 ->
                sequenceOf (descend n sc w).1 = 0)).
  { clear n. induction n as [|n IH]; intros sc w Hwf.
    - simpl. repeat split; try apply Hwf; try lia.
      rewrite Z.add_0_r. symmetry. apply Z.mod_small.
      exact (level_byte sc Hwf).
    - rewrite descend_S.
      pose proof (child_wf sc w Hwf) as Hwfc.
      destruct (child_segments sc w (wf_length sc Hwf)) as (Ht & _ & Hl).
      destruct (child_sequence sc w Hwf) as [Hs Hz].
      destruct (IH _ (spanContext.NewChildSpanContext sc w).2 Hwfc)
        as (Hw' & Ht' & Hl' & Hs').
      split; [exact Hw'|]. split; [congruence|]. split.
      + rewrite Hl', Hl. unfold uint8. rewrite Zplus_mod_idemp_l.
        f_equal. lia.
      + intros _ Hc. destruct n as [|n].
        * simpl. now rewrite Hs.
        * apply Hs'; [lia|exact Hz]. }
  intros sc w Hwf last.
  destruct (Hmain n sc w Hwf) as (Hw & Ht & Hl & _). fold last in Hw, Ht, Hl.
  split; [exact Hw|]. split; [exact Ht|]. split; [|split; [exact Hl|split]].
  - unfold getSpecialFlag, spanContext.getSpecialFlag. now rewrite Ht.
  - intros Hsmall. rewrite Hl. apply Z.mod_small.
    pose proof (level_byte sc Hwf) as Hb. unfold is_byte in Hb. lia.
  - intros Hn. destruct n as [|n]; [lia|]. subst last.
    rewrite descend_S.
    apply (Hmain n _ _ (child_wf sc w Hwf)); [lia|].
    exact (proj2 (child_sequence sc w Hwf)).
Qed.

Lemma descendants_keep_trace_witness :
  wf sample_root
  /\ spanContext.level (descend 2 sample_root sample_world).1 = 2.
Proof.
  split; [exact wf_sample_root|].
  refine (proj1 (proj2 (proj2 (proj2 (proj2
            (descendants_keep_trace 2 sample_root sample_world
               wf_sample_root))))) _).
  vm_compute. reflexivity.
Defined.

(** ** No-op spans *)

(** A no-op span still derives real child contexts: [NewChildSpan] on a
    span with a context never fails, the new span carries the context
    [NewChildSpanContext] derives (same flags, the parent's counter value
    as sequence number), and a second call on the same span yields the
    next sequence number. On a span created with a nil context it panics. *)
Theorem NoopSpan_NewChildSpan (nt : NoopTracer) (sc : spanContext.t)
    (name n1 n2 : string) (w : World) (Hwf : wf sc) :
  let ns := (NewSpan nt name (Some sc)).1 in
  exists s1 c1 ns1 w1 s2 c2 ns2 w2,
    NewChildSpan ns n1 w = Ok (Some s1, None, ns1, w1)
    /\ NewChildSpan ns1 n2 w1 = Ok (Some s2, None, ns2, w2)
    /\ ctx s1 = Some c1 /\ ctx s2 = Some c2
    /\ c1 = (spanContext.NewChildSpanContext sc w).1.1
    /\ sequenceOf c1 = spanContext.childSequenceID sc
    /\ sequenceOf c2 = uint16 (spanContext.childSequenceID sc + 1)
    /\ getSpecialFlag c1 = getSpecialFlag sc
    /\ getSpecialFlag c2 = getSpecialFlag sc
    /\ NewChildSpan (NewSpan nt name None).1 n1 w = Panic.
Proof.
  intros ns.
  destruct (parent_after_child sc w Hwf) as [Hwf1 Hc1].
  destruct (child_sequence sc w Hwf) as [Hs1 _].
  pose proof (child_flag sc w (wf_length sc Hwf)) as Hf1.
  destruct (spanContext.NewChildSpanContext sc w) as [[c1 p1] w1] eqn:E1.
  cbn [fst snd] in *.
  destruct (child_sequence p1 w1 Hwf1) as [Hs2 _].
  pose proof (child_flag p1 w1 (wf_length p1 Hwf1)) as Hf2.
  assert (Hid : spanContext.id p1 = spanContext.id sc).
  { pose proof (NewChildSpanContext_spec sc w (wf_length sc Hwf)) as Hsp.
    cbv zeta in Hsp. rewrite E1 in Hsp. injection Hsp as _ Hp _.
    now rewrite Hp. }
  assert (Hfp : getSpecialFlag p1 = getSpecialFlag sc).
  { now rewrite !getSpecialFlag_id, Hid. }
  destruct (spanContext.NewChildSpanContext p1 w1) as [[c2 p2] w2] eqn:E2.
  cbn [fst snd] in *.
  exists {| ctx := Some c1; tracer := nt |}, c1,
         {| ctx := Some p1; tracer := nt |}, w1,
         {| ctx := Some c2; tracer := nt |}, c2,
         {| ctx := Some p2; tracer := nt |}, w2.
  repeat split.
  - subst ns. unfold NewChildSpan, NewSpan, NewSpanWithOptions.
    cbn [ctx tracer fst]. now rewrite E1.
  - unfold NewChildSpan, NewSpan, NewSpanWithOptions.
    cbn [ctx tracer fst]. now rewrite E2.
  - exact Hs1.
  - now rewrite Hs2, Hc1.
  - exact Hf1.
  - now rewrite Hf2.
Qed.

Lemma NoopSpan_NewChildSpan_witness :
  wf sample_root
  /\ NewChildSpan (NewSpan NewNoopTracer "op" None).1 "child" sample_world
     = Panic.
Proof.
  split; [exact wf_sample_root|].
  destruct (NoopSpan_NewChildSpan NewNoopTracer sample_root "op" "child" "next"
              sample_world wf_sample_root)
    as (s1 & c1 & ns1 & w1 & s2 & c2 & ns2 & w2 & H).
  apply H.
Defined.

(** ** The sampler, continued *)

(** Clamping is idempotent, keeps a rate strictly between 0 and 1 as it
    is, and [SamplingRate] returns the clamped rate. *)
Theorem clamp_idempotent (rate : float64) :
  let s := NewProbabilisticSampler rate in
  NewProbabilisticSampler (ProbabilisticSampler.SamplingRate s) = s
  /\ (SFltb f64_zero rate = true -> SFltb rate f64_one = true ->
      ProbabilisticSampler.SamplingRate s = rate).
Proof.
  intros s. subst s.
  unfold NewProbabilisticSampler, ProbabilisticSampler.SamplingRate.
  cbn [ProbabilisticSampler.samplingRate].
  destruct (IsNaN rate) eqn:Hnan.
  { destruct rate; try discriminate. split; [reflexivity|discriminate]. }
  rewrite (clamp_spec rate Hnan). split.
  - destruct (SFltb rate f64_one) eqn:H1; [|reflexivity].
    destruct (SFltb f64_zero rate) eqn:H0; [|reflexivity].
    now rewrite (clamp_spec rate Hnan), H1, H0.
  - now intros -> ->.
Qed.

Lemma clamp_idempotent_witness :
  ProbabilisticSampler.SamplingRate
    (NewProbabilisticSampler (S754_finite false 4503599627370496 (-53)))
  = S754_finite false 4503599627370496 (-53).
Proof.
  apply (clamp_idempotent (S754_finite false 4503599627370496 (-53)));
    reflexivity.
Defined.

(** A generator whose sampler is a [ProbabilisticSampler] and that gets no
    explicit sampling option: with rate >= 1 every root context is
    sampled; with rate <= 0 a root context is reported sampled only when
    it is a debug context. *)
Theorem generator_sampling_boundaries
    (scg : cachedSpanContextGenerator.t) (rate : float64)
    (options : list SpanContextOption) (w : World)
    (Hsampler : cachedSpanContextGenerator.sampler scg
                = ProbabilisticSampler.as_Sampler (NewProbabilisticSampler rate))
    (Hnone : SpanContextOptions.IsSampled (applyOptions options) = None)
    (Hdraw : in_unit_interval (rand_Float64 w).1) :
  let root := Some (NewSpanContext scg options w).1 in
  (SFleb f64_one rate = true -> IsSpanContextSampled root = true)
  /\ (SFleb rate f64_zero = true ->
      IsSpanContextSampled root
      = SpanContextOptions.IsDebug (applyOptions options)).
Proof.
  intros root. destruct Hdraw as [Hlo Hhi].
  pose proof (root_flag scg options w) as Hflag. cbv zeta in Hflag.
  set (sco := applyOptions options) in *.
  assert (Hdec : forall b,
            SFltb (rand_Float64 w).1
              (math_Max f64_zero (math_Min rate f64_one)) = b ->
            IsSpanContextSampled root
            = b || SpanContextOptions.IsDebug sco).
  { intros b Hb.
    unfold IsSpanContextSampled, IsSpanContextDebug, isOldFormat,
      spanContext.isOldFormat, root.
    fold (getSpecialFlag (NewSpanContext scg options w).1).
    rewrite Hflag. unfold setSingleFlags, setTypeMarker.
    rewrite Hnone, Hsampler.
    unfold ProbabilisticSampler.as_Sampler, ProbabilisticSampler.IsSampled,
      NewProbabilisticSampler.
    cbn [Sampler_IsSampled ProbabilisticSampler.samplingRate].
    destruct (rand_Float64 w) as [d w'] eqn:Ed. cbn [fst] in Hb.
    rewrite Hb.
    destruct b, (SpanContextOptions.IsDebug sco),
      (SpanContextOptions.IsFromStressTest sco),
      (SpanContextOptions.IsShadow sco),
      (SpanContextOptions.IsCritical sco); now vm_compute. }
  split.
  - intros Hge. rewrite (Hdec true); [reflexivity|].
    assert (Hnan : IsNaN rate = false) by (now destruct rate).
    rewrite (clamp_spec rate Hnan), (SFleb_not_SFltb _ _ Hge). exact Hhi.
  - intros Hle. rewrite (Hdec false); [reflexivity|].
    assert (E : math_Max f64_zero (math_Min rate f64_one) = f64_zero).
    { destruct rate as [[|]|[|]| |[|] m e]; try discriminate; reflexivity. }
    rewrite E. now apply SFleb_not_SFltb.
Qed.

Lemma generator_sampling_boundaries_witness :
  in_unit_interval (rand_Float64 sample_world).1
  /\ IsSpanContextSampled (Some (NewSpanContext sample_generator [] sample_world).1)
     = true.
Proof.
  assert (Hd : in_unit_interval (rand_Float64 sample_world).1)
    by (split; reflexivity).
  split; [exact Hd|].
  apply (generator_sampling_boundaries sample_generator f64_one []
           sample_world eq_refl eq_refl Hd).
  reflexivity.
Defined.
